(** * zig_deps: the dependency scanner and reconciler of [zig_deps/main.py]

    A shallow embedding of the three stages of the tool:
    - URL extraction from one [build.zig.zon] manifest ([_find_dependencies]),
    - the directory walk that groups URLs per folder ([_collect_dependencies],
      [get_dependencies]),
    - the reconciliation loop of [main], which queries the external [zig]
      executable and optionally asks it to rewrite the manifest.

    Conventions of the embedding.
    - A Python [str] is a [string]; every [ascii] stands for the code point of
      the same number (the Latin-1 range of Unicode).
    - An exception is a value of [exn]; a function that may raise returns a
      [result].
    - The file system is a finite tree of readable entries, enumerated in the
      order [iterdir] yields them.
    - A [defaultdict(list)] is an association list in insertion order, which
      is the order a Python dict is iterated in.
    - [subprocess.run] is a transition of an abstract world, given by the
      class [Oracle]; every spawned command is appended to a log. *)

From Stdlib Require Import Strings.String Strings.Ascii Lists.List ZArith Bool Arith Lia.
Import ListNotations.

Open Scope string_scope.
Open Scope list_scope.

(** ** Exceptions and results *)

Inductive exn : Type :=
| IndexError
| RuntimeError (msg : string)
| NotADirectoryError
| IsADirectoryError
| OSError
| CalledProcessError (returncode : Z) (cmd : list string).

Inductive result (A : Type) : Type :=
| Ok (a : A)
| Err (e : exn).

Arguments Ok {A} a.
Arguments Err {A} e.

Definition bind_result {A B} (r : result A) (k : A -> result B) : result B :=
  match r with
  | Ok a => k a
  | Err e => Err e
  end.

Declare Scope result_scope.
Delimit Scope result_scope with result.
Notation "x <-? r ; k" := (bind_result r (fun x => k))
  (at level 61, r at next level, right associativity) : result_scope.
Open Scope result_scope.

(** ** Python string methods used by the tool *)

Module Str.

Definition LF : ascii := "010"%char.
Definition CR : ascii := "013"%char.
Definition dquote : ascii := "034"%char.
Definition hash : ascii := "035"%char.

(** [str.isspace] of one character, for code points below 256:
    TAB, LF, VT, FF, CR, the separators FS, GS, RS and US, the space,
    NEL (0x85) and the no-break space (0xA0). *)
Definition isspace (c : ascii) : bool :=
  let n := nat_of_ascii c in
  (((9 <=? n) && (n <=? 13)) || ((28 <=? n) && (n <=? 32))
   || (n =? 133) || (n =? 160))%nat.

Fixpoint lstrip (s : string) : string :=
  match s with
  | EmptyString => EmptyString
  | String c s' => if isspace c then lstrip s' else s
  end.

Fixpoint rstrip (s : string) : string :=
  match s with
  | EmptyString => EmptyString
  | String c s' =>
      match rstrip s' with
      | EmptyString => if isspace c then EmptyString else String c EmptyString
      | r => String c r
      end
  end.

(** [s.strip()] *)
Definition strip (s : string) : string := rstrip (lstrip s).

(** [s.startswith(p)] *)
Fixpoint startswith (s p : string) : bool :=
  match p, s with
  | EmptyString, _ => true
  | String a p', String b s' => Ascii.eqb b a && startswith s' p'
  | String _ _, EmptyString => false
  end.

(** [s.split(sep)] for a separator of one character: the fields between
    the occurrences of [sep]; never the empty list. *)
Fixpoint split (sep : ascii) (s : string) : list string :=
  match s with
  | EmptyString => [EmptyString]
  | String c s' =>
      if Ascii.eqb c sep then EmptyString :: split sep s'
      else match split sep s' with
           | f :: fs => String c f :: fs
           | [] => [String c EmptyString]
           end
  end.

(** [s[:n]] *)
Fixpoint take (n : nat) (s : string) : string :=
  match n, s with
  | S n', String c s' => String c (take n' s')
  | _, _ => EmptyString
  end.

(** The newline translation of a file opened in text mode with the default
    [newline=None]: CR LF and a lone CR are read as LF. *)
Fixpoint universal_newlines (s : string) : string :=
  match s with
  | EmptyString => EmptyString
  | String c s' =>
      if Ascii.eqb c CR then
        match s' with
        | String c' s'' =>
            if Ascii.eqb c' LF then String LF (universal_newlines s'')
            else String LF (universal_newlines s')
        | EmptyString => String LF EmptyString
        end
      else String c (universal_newlines s')
  end.

(** The lines of a text, each with its terminating LF (the last one may
    lack it). *)
Fixpoint keepends (s : string) : list string :=
  match s with
  | EmptyString => []
  | String c s' =>
      if Ascii.eqb c LF then String c EmptyString :: keepends s'
      else match keepends s' with
           | l :: ls => String c l :: ls
           | [] => [String c EmptyString]
           end
  end.

(** [f.readlines()] on the characters of the file *)
Definition readlines (content : string) : list string :=
  keepends (universal_newlines content).

(** Occurrence of a character, and the number of its occurrences. *)
Fixpoint mem (c : ascii) (s : string) : bool :=
  match s with
  | EmptyString => false
  | String c' s' => Ascii.eqb c' c || mem c s'
  end.

Fixpoint count (c : ascii) (s : string) : nat :=
  match s with
  | EmptyString => 0
  | String c' s' => (if Ascii.eqb c' c then 1 else 0) + count c s'
  end.

End Str.

(** ** Paths and the file system *)

(** A [pathlib.Path] is the list of its components. *)
Definition Path : Type := list string.

Definition Path_eq_dec : forall p q : Path, {p = q} + {p <> q} :=
  list_eq_dec string_dec.

(** [p / name] *)
Definition joinpath (p : Path) (name : string) : Path := p ++ [name].

(** [p.parent] *)
Definition parent (p : Path) : Path := removelast p.

(** [p.name] *)
Definition name_of (p : Path) : string := last p "".

#[local] Unset Elimination Schemes.

(** What a path designates: a regular file with its decoded characters, a
    directory with its entries in the order [iterdir] yields them, or
    something that is neither (a socket, a FIFO, a dangling link). *)
Inductive node : Type :=
| File (content : string)
| Dir (children : list (string * node))
| Other.

#[local] Set Elimination Schemes.

Definition is_dir (n : node) : bool :=
  match n with Dir _ => true | _ => false end.

Definition is_file (n : node) : bool :=
  match n with File _ => true | _ => false end.

(** Induction on a tree: a directory has the property when all its
    children have it. *)
Section NodeInduction.

Variable P : node -> Prop.
Hypothesis P_File : forall content, P (File content).
Hypothesis P_Other : P Other.
Hypothesis P_Dir :
  forall children, Forall (fun entry => P (snd entry)) children -> P (Dir children).

Fixpoint node_ind (n : node) : P n :=
  match n with
  | File content => P_File content
  | Other => P_Other
  | Dir children =>
      P_Dir children
        ((fix all (es : list (string * node))
            : Forall (fun entry => P (snd entry)) es :=
            match es with
            | [] => Forall_nil _
            | e :: rest => Forall_cons e (node_ind (snd e)) (all rest)
            end) children)
  end.

End NodeInduction.

(** ** Constants of the module *)

Definition HASH_DISPLAY_LEN : nat := 7.
Definition ZON : string := "build.zig.zon".

(** ** The accumulator: [defaultdict[Path, list[str]]] *)

Definition Dependencies : Type := list (Path * list string).

Fixpoint has_key (k : Path) (d : Dependencies) : bool :=
  match d with
  | [] => false
  | (k', _) :: d' => if Path_eq_dec k' k then true else has_key k d'
  end.

(** [d[k]] of a [defaultdict(list)]: a missing key is first bound to a new
    empty list, at the end of the iteration order. *)
Definition dd_getitem (k : Path) (d : Dependencies) : Dependencies :=
  if has_key k d then d else d ++ [(k, [])].

(** [.append(v)] on the list bound to [k]. *)
Fixpoint dd_append (k : Path) (v : string) (d : Dependencies) : Dependencies :=
  match d with
  | [] => []
  | (k', vs) :: d' =>
      if Path_eq_dec k' k then (k', vs ++ [v]) :: d'
      else (k', vs) :: dd_append k v d'
  end.

(** The list bound to [k], empty when [k] is not a key (a read that, unlike
    [d[k]], creates nothing). *)
Fixpoint dd_get (k : Path) (d : Dependencies) : list string :=
  match d with
  | [] => []
  | (k', vs) :: d' => if Path_eq_dec k' k then vs else dd_get k d'
  end.

Definition keys (d : Dependencies) : list Path := map fst d.

(** ** URL extraction *)

(** [xs[i]] *)
Definition getitem {A} (xs : list A) (i : nat) : result A :=
  match nth_error xs i with
  | Some x => Ok x
  | None => Err IndexError
  end.

(** The body of the loop of [_find_dependencies] for one raw line. *)
Definition find_line (folder : Path) (dependencies : Dependencies) (raw : string)
  : result Dependencies :=
  let line := Str.strip raw in
  if Str.startswith line "//" then Ok dependencies
  else if Str.startswith line ".url" then
    let dependencies := dd_getitem folder dependencies in
    v <-? getitem (Str.split Str.dquote line) 1 ;
    Ok (dd_append folder v dependencies)
  else Ok dependencies.

Fixpoint find_lines (folder : Path) (lines : list string) (dependencies : Dependencies)
  : result Dependencies :=
  match lines with
  | [] => Ok dependencies
  | raw :: rest =>
      d <-? find_line folder dependencies raw ;
      find_lines folder rest d
  end.

Definition _find_dependencies (file : Path) (f : node) (dependencies : Dependencies)
  : result Dependencies :=
  let folder := parent file in
  match f with
  | File content => find_lines folder (Str.readlines content) dependencies
  | Dir _ => Err IsADirectoryError
  | Other => Err OSError
  end.

(** ** The directory walk *)

(** [iterdir] is the enumeration of the children of a [Dir]; on anything else
    it raises. The loop over the children is the inner [fix]. *)
Fixpoint _collect_dependencies (directory : Path) (dir : node)
  (dependencies : Dependencies) (recursive : bool) {struct dir}
  : result Dependencies :=
  match dir with
  | Dir children =>
      (fix iterdir (children : list (string * node)) (dependencies : Dependencies)
         {struct children} : result Dependencies :=
         match children with
         | [] => Ok dependencies
         | (name, node) :: rest =>
             let child := joinpath directory name in
             d <-? (if is_dir node && recursive then
                      _collect_dependencies child node dependencies recursive
                    else if is_file node && (name_of child =? ZON) then
                      _find_dependencies child node dependencies
                    else Ok dependencies) ;
             iterdir rest d
         end) children dependencies
  | File _ => Err NotADirectoryError
  | Other => Err NotADirectoryError
  end.

Definition get_dependencies (root : Path) (fs : node) (recursive : bool)
  : result Dependencies :=
  let dependencies : Dependencies := [] in
  _collect_dependencies root fs dependencies recursive.

(** ** The external tool *)

(** One spawned command: its argument vector and its working directory
    ([None] when [cwd] is not given). *)
Record Call : Type := mkCall { argv : list string; cwd : option Path }.

(** A child process runs to its end and yields its exit status and its
    captured standard output, as text. The environment in which [zig] runs
    (the network, the package cache, the manifests it rewrites) is the
    abstract type [World]; two runs of the same command may differ. *)
Class Oracle (World : Type) : Type :=
  { spawn : Call -> World -> (Z * string) * World }.

(** The state of a run: the world, the commands spawned so far and the
    characters written to [sys.stdout]. *)
Record State (World : Type) : Type :=
  mkState { world : World; calls : list Call; stdout : string }.

Arguments mkState {World} world calls stdout.
Arguments world {World} s.
Arguments calls {World} s.
Arguments stdout {World} s.

(** Computations that may raise and that thread the state through. *)
Definition M (World A : Type) : Type := State World -> result A * State World.

Definition ret {World A} (a : A) : M World A := fun s => (Ok a, s).

Definition raise {World A} (e : exn) : M World A := fun s => (Err e, s).

Definition bind {World A B} (m : M World A) (k : A -> M World B) : M World B :=
  fun s =>
    match m s with
    | (Ok a, s') => k a s'
    | (Err e, s') => (Err e, s')
    end.

Definition lift {World A} (r : result A) : M World A :=
  match r with
  | Ok a => ret a
  | Err e => raise e
  end.

Declare Scope run_scope.
Delimit Scope run_scope with run.
Notation "x <- m ;; k" := (bind m (fun x => k))
  (at level 61, m at next level, right associativity) : run_scope.
Notation "m ;; k" := (bind m (fun _ => k))
  (at level 61, right associativity) : run_scope.
Open Scope run_scope.

(** [for x in xs: body(x)] *)
Fixpoint for_each {World A} (xs : list A) (body : A -> M World unit) : M World unit :=
  match xs with
  | [] => ret tt
  | x :: rest => body x ;; for_each rest body
  end.

(** [sys.stdout.write(text)] *)
Definition write {World} (text : string) : M World unit :=
  fun s => (Ok tt, mkState (world s) (calls s) (stdout s ++ text)).

(** [subprocess.run(argv, cwd=cwd, capture_output=True, check=True)]: the
    captured output of the command, or [CalledProcessError] when its exit
    status is not 0. *)
Definition subprocess_run {World} `{Oracle World} (argv : list string) (cwd : option Path)
  : M World string :=
  fun s =>
    let c := mkCall argv cwd in
    let '((returncode, out), w) := spawn c (world s) in
    let s' := mkState w (calls s ++ [c]) (stdout s) in
    if (returncode =? 0)%Z then (Ok out, s')
    else (Err (CalledProcessError returncode argv), s').

(** ** The reconciler *)

(** [base, *parts = url.split(...)]: the first field and the list of the
    others. *)
Definition get_base (url : string) : result string :=
  match Str.split Str.hash url with
  | base :: parts =>
      if (length parts =? 0)%nat then Err (RuntimeError "Unsupported URL format")
      else Ok base
  | [] => Err (RuntimeError "Unsupported URL format")
  end.

(** The parsed command line: [args.root], [args.recursive], [args.update]. *)
Record Args : Type := mkArgs { root : Path; recursive : bool; update : bool }.

Definition no_dependencies_message : string :=
  "no " ++ ZON ++ " file found (or no URLs in it)."
  ++ " did you run the command from the wrong directory?".

Section Reconciler.

Context {World : Type} `{Oracle World}.

Definition get_hash (url : string) : M World string :=
  subprocess_run ["zig"; "fetch"; url] None.

Definition update_package (folder : Path) (url : string) : M World unit :=
  base <- lift (get_base url) ;;
  _ <- subprocess_run ["zig"; "fetch"; "--save"; base] (Some folder) ;;
  ret tt.

(** The body of the inner loop of [main]. *)
Definition reconcile_url (update : bool) (folder : Path) (url : string) : M World unit :=
  base <- lift (get_base url) ;;
  current <- get_hash url ;;
  latest <- get_hash base ;;
  if (current =? latest)%string then
    write ("[" ++ base ++ "] already up to date" ++ String Str.LF "")
  else if update then
    update_package folder url ;;
    write ("[" ++ base ++ "] updated " ++ Str.take HASH_DISPLAY_LEN current
           ++ " -> " ++ Str.take HASH_DISPLAY_LEN latest ++ String Str.LF "")
  else
    write ("[" ++ base ++ "] out of date" ++ String Str.LF "").

(** [main] after [parser.parse_args()]; [fs] is what [args.root]
    designates. *)
Definition main (args : Args) (fs : node) : M World Z :=
  dependencies <- lift (get_dependencies (root args) fs (recursive args)) ;;
  match dependencies with
  | [] => write no_dependencies_message ;; ret 0%Z
  | _ =>
      for_each dependencies (fun '(folder, urls) =>
        for_each urls (fun url => reconcile_url (update args) folder url)) ;;
      ret 0%Z
  end.

End Reconciler.

(** [raise SystemExit(main())]: the exit status of the process. An
    exception that reaches the top level ends the interpreter with
    status 1. *)
Definition exit_status (r : result Z) : Z :=
  match r with
  | Ok code => code
  | Err _ => 1%Z
  end.

(** ** Notions used to state the properties *)

(** *** What one manifest yields *)

(** A raw line on which [_find_dependencies] appends a value: its trimmed
    form is not a comment and begins with the field marker. *)
Definition selected (raw : string) : bool :=
  let line := Str.strip raw in
  negb (Str.startswith line "//") && Str.startswith line ".url".

(** The value the code appends for a selected line. *)
Definition line_url (raw : string) : result string :=
  getitem (Str.split Str.dquote (Str.strip raw)) 1.

(** The values appended for a list of raw lines, in order. *)
Fixpoint extract (lines : list string) : result (list string) :=
  match lines with
  | [] => Ok []
  | raw :: rest =>
      if selected raw then
        v <-? line_url raw ;
        vs <-? extract rest ;
        Ok (v :: vs)
      else extract rest
  end.

Definition urls_of (content : string) : result (list string) :=
  extract (Str.readlines content).

(** Appending a sequence of values to the group of [folder]. *)
Fixpoint extend (folder : Path) (vs : list string) (d : Dependencies) : Dependencies :=
  match vs with
  | [] => d
  | v :: rest => extend folder rest (dd_append folder v (dd_getitem folder d))
  end.

(** *** The quoted value of a line, as the manifest format describes it *)

(** The characters before the first occurrence of [c], when there is one. *)
Fixpoint before (c : ascii) (s : string) : option string :=
  match s with
  | EmptyString => None
  | String c' s' =>
      if Ascii.eqb c' c then Some EmptyString
      else option_map (String c') (before c s')
  end.

(** The characters after the first occurrence of [c], when there is one. *)
Fixpoint after (c : ascii) (s : string) : option string :=
  match s with
  | EmptyString => None
  | String c' s' => if Ascii.eqb c' c then Some s' else after c s'
  end.

(** The text between the first pair of double-quote characters. *)
Definition between_quotes (line : string) : option string :=
  match after Str.dquote line with
  | Some r => before Str.dquote r
  | None => None
  end.

(** The quoted values of the non-comment trimmed lines that begin with
    [.url], in file order. *)
Definition quoted_values (content : string) : list string :=
  flat_map
    (fun raw =>
       let line := Str.strip raw in
       if Str.startswith line "//" then []
       else if Str.startswith line ".url" then
         match between_quotes line with
         | Some v => [v]
         | None => []
         end
       else [])
    (Str.readlines content).

(** Every key is bound to a list with at least one element. *)
Definition nonempty_groups (d : Dependencies) : Prop :=
  Forall (fun g : Path * list string => snd g <> []) d.

(** *** The manifests in scope *)

(** [reaches n rel m]: following the names [rel] from the directory [n]
    leads to [m]. *)
Inductive reaches : node -> list string -> node -> Prop :=
| reaches_here (n : node) : reaches n [] n
| reaches_step (children : list (string * node)) (name : string) (child : node)
    (rel : list string) (m : node) :
    In (name, child) children ->
    reaches child rel m ->
    reaches (Dir children) (name :: rel) m.

(** A manifest with the characters [content] lies in [folder], which is
    [root] itself or, in a recursive scan, a directory below it. *)
Definition in_scope (recursive : bool) (root : Path) (fs : node)
  (folder : Path) (content : string) : Prop :=
  exists rel : list string,
    folder = root ++ rel
    /\ reaches fs (rel ++ [ZON]) (File content)
    /\ (recursive = false -> rel = []).

(** The manifests in scope in traversal order, each with its folder. *)
Fixpoint manifests (recursive : bool) (directory : Path) (dir : node)
  {struct dir} : list (Path * string) :=
  match dir with
  | Dir children =>
      (fix each (children : list (string * node)) : list (Path * string) :=
         match children with
         | [] => []
         | (name, node) :: rest =>
             match node with
             | Dir _ =>
                 if recursive then manifests recursive (joinpath directory name) node
                 else []
             | File content => if (name =? ZON) then [(directory, content)] else []
             | Other => []
             end ++ each rest
         end) children
  | File _ => []
  | Other => []
  end.

(** Running the extractor over a sequence of manifests. *)
Fixpoint find_all (ms : list (Path * string)) (d : Dependencies) : result Dependencies :=
  match ms with
  | [] => Ok d
  | (folder, content) :: rest =>
      d' <-? _find_dependencies (joinpath folder ZON) (File content) d ;
      find_all rest d'
  end.

(** The values a manifest contributes, none when its extraction raises. *)
Definition urls_or_nil (content : string) : list string :=
  match urls_of content with
  | Ok vs => vs
  | Err _ => []
  end.

(** The values the manifests of folder [k] contribute, in traversal order. *)
Definition group_of (k : Path) (ms : list (Path * string)) : list string :=
  flat_map (fun m => if Path_eq_dec (fst m) k then urls_or_nil (snd m) else []) ms.

(** The body of the loop of [_collect_dependencies], and the loop. *)
Definition visit_child (directory : Path) (recursive : bool) (d : Dependencies)
  (entry : string * node) : result Dependencies :=
  let child := joinpath directory (fst entry) in
  if is_dir (snd entry) && recursive then
    _collect_dependencies child (snd entry) d recursive
  else if is_file (snd entry) && (name_of child =? ZON) then
    _find_dependencies child (snd entry) d
  else Ok d.

Fixpoint iterdir_loop (directory : Path) (recursive : bool)
  (children : list (string * node)) (d : Dependencies) : result Dependencies :=
  match children with
  | [] => Ok d
  | entry :: rest =>
      d' <-? visit_child directory recursive d entry ;
      iterdir_loop directory recursive rest d'
  end.

(** The manifests one child of [directory] brings into scope. *)
Definition manifests_of_child (recursive : bool) (directory : Path)
  (entry : string * node) : list (Path * string) :=
  match snd entry with
  | Dir _ =>
      if recursive then manifests recursive (joinpath directory (fst entry)) (snd entry)
      else []
  | File content => if (fst entry =? ZON) then [(directory, content)] else []
  | Other => []
  end.

(** *** The declarations of a run and the commands it spawns *)

(** The (folder, url) pairs in the order [main] processes them. *)
Definition declarations (d : Dependencies) : list (Path * string) :=
  flat_map (fun g => map (pair (fst g)) (snd g)) d.

Definition fetch_call (url : string) : Call :=
  mkCall ["zig"; "fetch"; url] None.

Definition save_call (folder : Path) (base : string) : Call :=
  mkCall ["zig"; "fetch"; "--save"; base] (Some folder).

(** A command in the save mode of the tool: [zig fetch --save <url>]. *)
Definition is_save (c : Call) : bool :=
  match argv c with
  | [a; b; c; _] => (a =? "zig") && (b =? "fetch") && (c =? "--save")
  | _ => false
  end.

(** The lines [main] writes. *)
Definition up_to_date_line (base : string) : string :=
  "[" ++ base ++ "] already up to date" ++ String Str.LF "".

Definition out_of_date_line (base : string) : string :=
  "[" ++ base ++ "] out of date" ++ String Str.LF "".

Definition updated_line (base current latest : string) : string :=
  "[" ++ base ++ "] updated " ++ Str.take 7 current ++ " -> "
  ++ Str.take 7 latest ++ String Str.LF "".

(** The two loops of [main] as one loop over the declarations. *)
Definition reconcile {World : Type} `{Oracle World} (update : bool)
  (d : Dependencies) : M World unit :=
  for_each (declarations d) (fun p => reconcile_url update (fst p) (snd p)).

(** *** A scripted tool for concrete runs *)

(** The world is the list of outcomes still to be played, one per spawned
    command; when the script is exhausted the command fails. *)
Definition Script : Type := list (Z * string).

#[export] Instance scripted : Oracle Script :=
  {| spawn := fun _ w =>
       match w with
       | r :: w' => (r, w')
       | [] => ((1%Z, ""), [])
       end |}.

Definition start (w : Script) : State Script := mkState w [] "".

(** A quoted string literal, for writing manifests. *)
Definition quoted (s : string) : string :=
  String Str.dquote (s ++ String Str.dquote "").

(** From [s] to [s'] only commands satisfying [ok] were spawned. *)
Definition spawned_only {World : Type} (ok : Call -> bool) (s s' : State World)
  : Prop :=
  exists new, calls s' = calls s ++ new /\ forallb ok new = true.

(** *** Sample inputs *)

(** Sample inputs: a manifest with a commented-out declaration and a live
    one, a manifest with two declarations, and a project tree with a
    manifest at the root and one in a subdirectory. *)
Definition nl : string := String Str.LF "".

Definition sample_manifest : string :=
  ".{" ++ nl
  ++ "    // .url = " ++ quoted "https://old.example/x.tar.gz#000" ++ "," ++ nl
  ++ "    .url = " ++ quoted "https://example.com/pkg.tar.gz#abcdef1234" ++ "," ++ nl
  ++ "    .hash = " ++ quoted "1220aa" ++ "," ++ nl
  ++ "}" ++ nl.

Definition sample_sub_manifest : string :=
  ".url = " ++ quoted "b#2" ++ nl ++ ".url = " ++ quoted "c#3" ++ nl.

Definition sample_tree : list (string * node) :=
  [ ("src", Dir [("build.zig.zon", File sample_sub_manifest); ("notes", Other)]);
    ("build.zig.zon", File sample_manifest);
    ("build.zig", File "") ].

(** Turns a closed list expression of the goal into its value. *)
Ltac evaluate t :=
  let v := eval vm_compute in t in change t with v.

(** A manifest with three declarations, and a script in which the first is
    up to date, the second is stale and its save command exits with status
    2; two more outcomes are left for the third. *)
Definition three_urls : node :=
  Dir [("build.zig.zon",
        File (".url = " ++ quoted "a#1" ++ nl ++ ".url = " ++ quoted "b#2" ++ nl
              ++ ".url = " ++ quoted "c#3" ++ nl))].

Definition failing_save : Script :=
  [(0%Z, "H"); (0%Z, "H"); (0%Z, "H1"); (0%Z, "H2"); (2%Z, ""); (0%Z, "H3"); (0%Z, "H3")].

(** * Properties *)

(** ** The model on concrete inputs *)

Module Examples.

Example strip_line :
  Str.strip ("   .url = x,  " ++ String Str.CR nl) = ".url = x,".
Proof. reflexivity. Qed.

Example strip_blank : Str.strip ("  " ++ nl) = "".
Proof. reflexivity. Qed.

Example split_fields : Str.split Str.hash "a#b#c" = ["a"; "b"; "c"].
Proof. reflexivity. Qed.

Example split_empty : Str.split Str.hash "" = [""].
Proof. reflexivity. Qed.

Example split_trailing : Str.split Str.hash "a#" = ["a"; ""].
Proof. reflexivity. Qed.

Example take_short : Str.take 7 "1220" = "1220".
Proof. reflexivity. Qed.

Example take_long : Str.take 7 "0123456789" = "0123456".
Proof. reflexivity. Qed.

Example readlines_newlines :
  Str.readlines ("a" ++ String Str.CR nl ++ "b" ++ String Str.CR "c" ++ nl ++ "d")
  = [("a" ++ nl)%string; ("b" ++ nl)%string; ("c" ++ nl)%string; "d"].
Proof. reflexivity. Qed.

Example get_base_two_fragments : get_base "a#b#c" = Ok "a".
Proof. reflexivity. Qed.

Example get_base_empty_fragment : get_base "a#" = Ok "a".
Proof. reflexivity. Qed.

Example extract_sample :
  urls_of sample_manifest = Ok ["https://example.com/pkg.tar.gz#abcdef1234"].
Proof. reflexivity. Qed.

Example walk_recursive :
  get_dependencies ["proj"] (Dir sample_tree) true
  = Ok [(["proj"; "src"], ["b#2"; "c#3"]);
        (["proj"], ["https://example.com/pkg.tar.gz#abcdef1234"])].
Proof. reflexivity. Qed.

Example walk_flat :
  get_dependencies ["proj"] (Dir sample_tree) false
  = Ok [(["proj"], ["https://example.com/pkg.tar.gz#abcdef1234"])].
Proof. reflexivity. Qed.

Example walk_same_folder_twice :
  extend ["p"] ["u2"] (extend ["q"] ["v"] (extend ["p"] ["u1"] []))
  = [(["p"], ["u1"; "u2"]); (["q"], ["v"])].
Proof. reflexivity. Qed.

(** A run with the update flag: [b] is updated, [c] is up to date, and the
    query for the latest revision of the third dependency fails. *)
Example run_sample :
  main (mkArgs ["proj"] true true) (Dir sample_tree)
    (start [(0%Z, "1220aaaaaaaa"); (0%Z, "1220bbbbbbbb"); (0%Z, "");
            (0%Z, "1220cc"); (0%Z, "1220cc");
            (0%Z, "1220dd"); (3%Z, "")])
  = (Err (CalledProcessError 3 ["zig"; "fetch"; "https://example.com/pkg.tar.gz"]),
     mkState []
       [fetch_call "b#2"; fetch_call "b"; save_call ["proj"; "src"] "b";
        fetch_call "c#3"; fetch_call "c";
        fetch_call "https://example.com/pkg.tar.gz#abcdef1234";
        fetch_call "https://example.com/pkg.tar.gz"]
       ("[b] updated 1220aaa -> 1220bbb" ++ nl ++ "[c] already up to date" ++ nl)).
Proof. reflexivity. Qed.

End Examples.

(** ** Strings *)

Module StrFacts.

Section OneSeparator.

Variable c : ascii.

Lemma before_none (s : string) : before c s = None <-> Str.mem c s = false.
Proof.
  induction s as [|c' s IH]; simpl.
  - tauto.
  - destruct (Ascii.eqb c' c); simpl.
    + split; discriminate.
    + destruct (before c s); simpl.
      * split; [discriminate|]. intros E. apply IH in E. discriminate.
      * tauto.
Qed.

Lemma after_none (s : string) : after c s = None <-> Str.mem c s = false.
Proof.
  induction s as [|c' s IH]; simpl.
  - tauto.
  - destruct (Ascii.eqb c' c); simpl; [split; discriminate | exact IH].
Qed.

Lemma count_after_none (s : string) : after c s = None -> Str.count c s = 0.
Proof.
  induction s as [|c' s IH]; simpl; [reflexivity|].
  destruct (Ascii.eqb c' c); [discriminate | exact IH].
Qed.

Lemma count_after_some (s r : string) :
  after c s = Some r -> Str.count c s = S (Str.count c r).
Proof.
  induction s as [|c' s IH]; simpl; [discriminate|].
  destruct (Ascii.eqb c' c).
  - intros [= ->]. reflexivity.
  - exact IH.
Qed.

Lemma mem_count (s : string) : Str.mem c s = false <-> Str.count c s = 0.
Proof.
  induction s as [|c' s IH]; simpl; [tauto|].
  destruct (Ascii.eqb c' c); simpl; [split; discriminate | exact IH].
Qed.

(** The first field of a split and the split of what follows. *)
Lemma split_cons (s : string) :
  Str.split c s =
  match before c s with Some a => a | None => s end
  :: match after c s with Some r => Str.split c r | None => [] end.
Proof.
  induction s as [|c' s IH]; simpl; [reflexivity|].
  destruct (Ascii.eqb c' c); [reflexivity|].
  rewrite IH. destruct (before c s); reflexivity.
Qed.

Lemma split_second (s : string) :
  nth_error (Str.split c s) 1 =
  match after c s with
  | Some r => Some match before c r with Some b => b | None => r end
  | None => None
  end.
Proof.
  rewrite split_cons. simpl.
  destruct (after c s) as [r|]; [|reflexivity].
  rewrite split_cons. reflexivity.
Qed.

Lemma split_length (s : string) : length (Str.split c s) = S (Str.count c s).
Proof.
  induction s as [|c' s IH]; simpl; [reflexivity|].
  destruct (Ascii.eqb c' c); simpl; [now rewrite IH|].
  destruct (Str.split c s); simpl in *; [discriminate | exact IH].
Qed.

(** [before] and [after] cut the string at the first occurrence. *)
Lemma before_after (s a r : string) :
  before c s = Some a -> after c s = Some r ->
  s = (a ++ String c r)%string /\ Str.mem c a = false.
Proof.
  revert a. induction s as [|c' s IH]; simpl; [discriminate|].
  intros a. destruct (Ascii.eqb_spec c' c) as [->|N].
  - intros [= <-] [= <-]. split; reflexivity.
  - destruct (before c s) as [a'|]; simpl; [|discriminate].
    intros [= <-] E. destruct (IH a' eq_refl E) as [-> M]. split.
    + reflexivity.
    + simpl. rewrite M. apply Ascii.eqb_neq in N. now rewrite N.
Qed.

End OneSeparator.

Lemma take_length (n : nat) (s : string) :
  String.length (Str.take n s) = Nat.min n (String.length s).
Proof.
  revert s. induction n as [|n IH]; intros [|c s]; simpl; try reflexivity.
  now rewrite IH.
Qed.

Lemma take_prefix (n : nat) (s : string) :
  Str.startswith s (Str.take n s) = true.
Proof.
  revert s. induction n as [|n IH]; intros [|c s]; simpl; try reflexivity.
  now rewrite Ascii.eqb_refl, IH.
Qed.

Lemma append_nil_r (s : string) : (s ++ "")%string = s.
Proof. induction s; simpl; congruence. Qed.

Lemma append_assoc (a b d : string) : ((a ++ b) ++ d = a ++ b ++ d)%string.
Proof. induction a; simpl; congruence. Qed.

(** A trimmed comment line does not begin with the field marker. *)
Lemma comment_not_url (line : string) :
  Str.startswith line "//" = true -> Str.startswith line ".url" = false.
Proof.
  destruct line as [|a line]; simpl; [discriminate|].
  destruct (Ascii.eqb_spec a "/"%char) as [->|]; [reflexivity | discriminate].
Qed.

End StrFacts.

(** ** The accumulator *)

Module DictFacts.

Lemma has_key_app (k : Path) (d e : Dependencies) :
  has_key k (d ++ e) = has_key k d || has_key k e.
Proof.
  induction d as [|[k0 vs] d IH]; simpl; [reflexivity|].
  destruct (Path_eq_dec k0 k); [reflexivity | exact IH].
Qed.

Lemma has_key_getitem (k k' : Path) (d : Dependencies) :
  has_key k' (dd_getitem k d) = has_key k' d || (if Path_eq_dec k k' then true else false).
Proof.
  unfold dd_getitem. destruct (has_key k d) eqn:E.
  - destruct (Path_eq_dec k k') as [<-|]; [now rewrite E | now rewrite orb_false_r].
  - rewrite has_key_app. simpl. now destruct (Path_eq_dec k k').
Qed.

Lemma has_key_append (k k' : Path) (v : string) (d : Dependencies) :
  has_key k' (dd_append k v d) = has_key k' d.
Proof.
  induction d as [|[k0 vs] d IH]; simpl; [reflexivity|].
  destruct (Path_eq_dec k0 k); simpl; destruct (Path_eq_dec k0 k'); auto.
Qed.

Lemma dd_get_absent (k : Path) (d : Dependencies) :
  has_key k d = false -> dd_get k d = [].
Proof.
  induction d as [|[k0 vs] d IH]; simpl; [reflexivity|].
  destruct (Path_eq_dec k0 k); [discriminate | exact IH].
Qed.

Lemma dd_get_getitem (k k' : Path) (d : Dependencies) :
  dd_get k' (dd_getitem k d) = dd_get k' d.
Proof.
  unfold dd_getitem. destruct (has_key k d); [reflexivity|].
  induction d as [|[k0 vs] d IH]; simpl.
  - now destruct (Path_eq_dec k k').
  - destruct (Path_eq_dec k0 k'); [reflexivity | exact IH].
Qed.

Lemma dd_get_append (k k' : Path) (v : string) (d : Dependencies) :
  dd_get k' (dd_append k v d) =
  if has_key k d && (if Path_eq_dec k k' then true else false)
  then dd_get k' d ++ [v] else dd_get k' d.
Proof.
  induction d as [|[k0 vs] d IH]; simpl; [reflexivity|].
  destruct (Path_eq_dec k0 k) as [->|N]; simpl.
  - destruct (Path_eq_dec k k'); reflexivity.
  - destruct (Path_eq_dec k0 k') as [->|N']; [|exact IH].
    destruct (Path_eq_dec k k'); [congruence|].
    now rewrite andb_false_r.
Qed.

(** The effect of [dependencies[k].append(v)] on the groups. *)
Lemma dd_get_put (k k' : Path) (v : string) (d : Dependencies) :
  dd_get k' (dd_append k v (dd_getitem k d)) =
  if Path_eq_dec k k' then dd_get k' d ++ [v] else dd_get k' d.
Proof.
  rewrite dd_get_append, has_key_getitem, dd_get_getitem.
  destruct (Path_eq_dec k k') as [<-|].
  - destruct (Path_eq_dec k k); [|congruence]. now rewrite orb_true_r.
  - now rewrite andb_false_r.
Qed.

Lemma has_key_put (k k' : Path) (v : string) (d : Dependencies) :
  has_key k' (dd_append k v (dd_getitem k d)) =
  has_key k' d || (if Path_eq_dec k k' then true else false).
Proof. now rewrite has_key_append, has_key_getitem. Qed.

Lemma length_append (k : Path) (v : string) (d : Dependencies) :
  length (dd_append k v d) = length d.
Proof.
  induction d as [|[k0 vs] d IH]; simpl; [reflexivity|].
  destruct (Path_eq_dec k0 k); simpl; congruence.
Qed.

Lemma length_put (k : Path) (v : string) (d : Dependencies) :
  0 < length (dd_append k v (dd_getitem k d)).
Proof.
  rewrite length_append. unfold dd_getitem.
  destruct (has_key k d) eqn:E.
  - destruct d; [discriminate | simpl; lia].
  - rewrite length_app. simpl. lia.
Qed.

Lemma nonempty_append (k : Path) (v : string) (d e : Dependencies) :
  nonempty_groups d ->
  nonempty_groups e \/ (has_key k d = false /\ exists e', e = (k, []) :: e' /\ nonempty_groups e') ->
  has_key k d = true \/ e <> [] ->
  nonempty_groups (dd_append k v (d ++ e)).
Proof.
  unfold nonempty_groups.
  induction d as [|[k0 vs] d IH]; simpl; intros Hd He Hk.
  - destruct He as [He | [_ [e' [-> He']]]].
    + destruct Hk as [Hk|Hk]; [discriminate|].
      clear Hk. induction e as [|[k1 ws] e IHe]; simpl; [constructor|].
      inversion He as [|? ? H1 H2]; subst.
      destruct (Path_eq_dec k1 k).
      * constructor; [|assumption]. simpl. now destruct ws.
      * constructor; [assumption | now apply IHe].
    + simpl. destruct (Path_eq_dec k k); [|congruence].
      constructor; [simpl; discriminate | assumption].
  - inversion Hd as [|? ? H1 H2]; subst.
    destruct (Path_eq_dec k0 k) as [->|N].
    + constructor.
      * simpl. now destruct vs.
      * apply Forall_app. split; [assumption|].
        destruct He as [He | [F _]]; [assumption|].
        simpl in F. destruct (Path_eq_dec k k); [discriminate | congruence].
    + constructor; [assumption|].
      apply IH; [assumption | | assumption].
      destruct He as [He | [F He]]; [now left | right].
      simpl in F. destruct (Path_eq_dec k0 k); [congruence | now split].
Qed.

Lemma nonempty_put (k : Path) (v : string) (d : Dependencies) :
  nonempty_groups d -> nonempty_groups (dd_append k v (dd_getitem k d)).
Proof.
  intros Hd. unfold dd_getitem. destruct (has_key k d) eqn:E.
  - rewrite <- (app_nil_r d). apply nonempty_append; auto.
    left. constructor.
  - apply nonempty_append; auto.
    + right. split; [assumption|]. exists []. split; [reflexivity | constructor].
    + right. discriminate.
Qed.

(** *** [extend] *)

Lemma dd_get_extend (k k' : Path) (vs : list string) (d : Dependencies) :
  dd_get k' (extend k vs d) =
  if Path_eq_dec k k' then dd_get k' d ++ vs else dd_get k' d.
Proof.
  revert d. induction vs as [|v vs IH]; intros d; simpl.
  - destruct (Path_eq_dec k k'); [now rewrite app_nil_r | reflexivity].
  - rewrite IH, dd_get_put.
    destruct (Path_eq_dec k k'); [now rewrite <- app_assoc | reflexivity].
Qed.

Lemma has_key_extend (k k' : Path) (vs : list string) (d : Dependencies) :
  has_key k' (extend k vs d) =
  has_key k' d
  || ((if Path_eq_dec k k' then true else false) && negb (Nat.eqb (length vs) 0)).
Proof.
  revert d. induction vs as [|v vs IH]; intros d; simpl.
  - now rewrite andb_false_r, orb_false_r.
  - rewrite IH, has_key_put.
    destruct (Path_eq_dec k k'); simpl;
      destruct (has_key k' d); reflexivity.
Qed.

Lemma nonempty_extend (k : Path) (vs : list string) (d : Dependencies) :
  nonempty_groups d -> nonempty_groups (extend k vs d).
Proof.
  revert d. induction vs as [|v vs IH]; intros d Hd; simpl; [assumption|].
  apply IH. now apply nonempty_put.
Qed.

Lemma length_extend (k : Path) (vs : list string) (d : Dependencies) :
  length d <= length (extend k vs d)
  /\ (vs <> [] -> 0 < length (extend k vs d)).
Proof.
  revert d. induction vs as [|v vs IH]; intros d; simpl.
  - split; [lia | congruence].
  - destruct (IH (dd_append k v (dd_getitem k d))) as [L _].
    pose proof (length_put k v d) as P.
    rewrite length_append in L, P.
    assert (length d <= length (dd_getitem k d)) as G.
    { unfold dd_getitem. destruct (has_key k d); [lia|]. rewrite length_app. lia. }
    split; [lia | intros _; lia].
Qed.

Lemma extend_nil_iff (k : Path) (vs : list string) (d : Dependencies) :
  extend k vs d = [] <-> d = [] /\ vs = [].
Proof.
  split.
  - intros E. destruct (length_extend k vs d) as [L P]. rewrite E in L, P. simpl in *.
    split.
    + destruct d; [reflexivity | simpl in L; lia].
    + destruct vs; [reflexivity|]. assert (0 < 0) by (apply P; discriminate). lia.
  - intros [-> ->]. reflexivity.
Qed.

End DictFacts.

(** ** The extractor *)

Module ExtractFacts.

Import StrFacts.

Lemma selected_comment (raw : string) :
  Str.startswith (Str.strip raw) "//" = true -> selected raw = false.
Proof. unfold selected. now intros ->. Qed.

Lemma find_line_skip (folder : Path) (d : Dependencies) (raw : string) :
  selected raw = false -> find_line folder d raw = Ok d.
Proof.
  unfold selected, find_line.
  destruct (Str.startswith (Str.strip raw) "//"); [reflexivity|].
  simpl. now intros ->.
Qed.

Lemma find_line_selected (folder : Path) (d : Dependencies) (raw : string) :
  selected raw = true ->
  find_line folder d raw =
  (v <-? line_url raw ; Ok (dd_append folder v (dd_getitem folder d))).
Proof.
  unfold selected, find_line, line_url.
  destruct (Str.startswith (Str.strip raw) "//"); [discriminate|].
  simpl. now intros ->.
Qed.

(** The value appended for a line, by the number of its quote characters. *)
Lemma line_url_cases (raw : string) :
  line_url raw =
  match after Str.dquote (Str.strip raw) with
  | Some r => Ok match before Str.dquote r with Some b => b | None => r end
  | None => Err IndexError
  end.
Proof.
  unfold line_url, getitem. rewrite split_second.
  now destruct (after Str.dquote (Str.strip raw)).
Qed.

Lemma line_url_error (raw : string) (e : exn) :
  line_url raw = Err e -> e = IndexError.
Proof.
  unfold line_url, getitem.
  destruct (nth_error _ 1); [discriminate | now intros [= <-]].
Qed.

Lemma line_url_no_quote (raw : string) :
  Str.mem Str.dquote (Str.strip raw) = false -> line_url raw = Err IndexError.
Proof.
  intros M. rewrite line_url_cases.
  apply after_none in M. now rewrite M.
Qed.

Lemma line_url_one_quote (raw : string) :
  Str.count Str.dquote (Str.strip raw) = 1 ->
  exists v, after Str.dquote (Str.strip raw) = Some v /\ line_url raw = Ok v.
Proof.
  intros C. rewrite line_url_cases.
  destruct (after Str.dquote (Str.strip raw)) as [r|] eqn:A.
  - exists r. split; [reflexivity|].
    apply count_after_some in A. rewrite C in A. injection A as A.
    symmetry in A. apply mem_count, before_none in A. now rewrite A.
  - apply count_after_none in A. congruence.
Qed.

Lemma line_url_pair (raw : string) :
  2 <= Str.count Str.dquote (Str.strip raw) ->
  exists v, between_quotes (Str.strip raw) = Some v /\ line_url raw = Ok v.
Proof.
  intros C. rewrite line_url_cases. unfold between_quotes.
  destruct (after Str.dquote (Str.strip raw)) as [r|] eqn:A.
  - apply count_after_some in A. rewrite A in C.
    destruct (before Str.dquote r) as [b|] eqn:B.
    + now exists b.
    + apply before_none, mem_count in B. lia.
  - apply count_after_none in A. lia.
Qed.

(** [find_lines] appends the extracted values to the group of the folder,
    or raises what the first failing line raises. *)
Lemma find_lines_extract (folder : Path) (lines : list string) (d : Dependencies) :
  find_lines folder lines d = (vs <-? extract lines ; Ok (extend folder vs d)).
Proof.
  revert d. induction lines as [|raw rest IH]; intros d; simpl; [reflexivity|].
  destruct (selected raw) eqn:S.
  - rewrite (find_line_selected _ _ _ S).
    destruct (line_url raw) as [v|e]; simpl; [|reflexivity].
    rewrite IH. now destruct (extract rest).
  - rewrite (find_line_skip _ _ _ S). simpl. apply IH.
Qed.

Lemma parent_joinpath (folder : Path) (name : string) :
  parent (joinpath folder name) = folder.
Proof. apply removelast_last. Qed.

Lemma name_of_joinpath (folder : Path) (name : string) :
  name_of (joinpath folder name) = name.
Proof. apply last_last. Qed.

Lemma find_dependencies_urls (folder : Path) (content : string) (d : Dependencies) :
  _find_dependencies (joinpath folder ZON) (File content) d =
  (vs <-? urls_of content ; Ok (extend folder vs d)).
Proof.
  unfold _find_dependencies, urls_of. rewrite parent_joinpath.
  apply find_lines_extract.
Qed.

Lemma extract_error (lines : list string) (e : exn) :
  extract lines = Err e -> e = IndexError.
Proof.
  induction lines as [|raw rest IH]; simpl; [discriminate|].
  destruct (selected raw); [|exact IH].
  destruct (line_url raw) as [v|e'] eqn:L; simpl.
  - destruct (extract rest); simpl; [discriminate|].
    intros [= <-]. now apply IH.
  - intros [= <-]. now apply line_url_error in L.
Qed.

Lemma extract_nil_iff (lines : list string) :
  extract lines = Ok [] <-> Forall (fun raw => selected raw = false) lines.
Proof.
  induction lines as [|raw rest IH]; simpl.
  - split; [constructor | reflexivity].
  - destruct (selected raw) eqn:S.
    + split.
      * destruct (line_url raw); simpl; [|discriminate].
        destruct (extract rest); simpl; discriminate.
      * intros F. inversion F; congruence.
    + rewrite IH. split; [now constructor | intros F; now inversion F].
Qed.

Lemma extract_bad_line (lines : list string) (raw : string) :
  In raw lines -> selected raw = true -> line_url raw = Err IndexError ->
  extract lines = Err IndexError.
Proof.
  intros I S L. induction lines as [|raw' rest IH]; simpl; [contradiction|].
  change (extract (raw' :: rest) = Err IndexError).
  destruct (extract (raw' :: rest)) as [vs|e] eqn:E.
  - exfalso. simpl in E. destruct I as [->|I].
    + rewrite S, L in E. discriminate.
    + specialize (IH I). rewrite IH in E.
      destruct (selected raw'); [|discriminate].
      destruct (line_url raw'); discriminate.
  - f_equal. now apply extract_error in E.
Qed.

(** On lines that all carry a pair of quotes the extracted values are the
    quoted values. *)
Lemma extract_quoted (lines : list string) :
  Forall (fun raw => selected raw = true ->
                     2 <= Str.count Str.dquote (Str.strip raw)) lines ->
  extract lines =
  Ok (flat_map
        (fun raw =>
           let line := Str.strip raw in
           if Str.startswith line "//" then []
           else if Str.startswith line ".url" then
             match between_quotes line with
             | Some v => [v]
             | None => []
             end
           else [])
        lines).
Proof.
  induction 1 as [|raw rest P _ IH]; simpl; [reflexivity|].
  rewrite IH. unfold selected in *.
  destruct (Str.startswith (Str.strip raw) "//"); simpl in *; [reflexivity|].
  destruct (Str.startswith (Str.strip raw) ".url"); simpl; [|reflexivity].
  destruct (line_url_pair raw (P eq_refl)) as [v [-> ->]]. reflexivity.
Qed.

End ExtractFacts.

(** ** The directory walk *)

Module WalkFacts.

Import ExtractFacts DictFacts.

#[local] Arguments _find_dependencies : simpl never.

Lemma collect_Dir (directory : Path) (children : list (string * node))
  (d : Dependencies) (recursive : bool) :
  _collect_dependencies directory (Dir children) d recursive =
  iterdir_loop directory recursive children d.
Proof.
  revert d. induction children as [|[name n] rest IH]; intros d; [reflexivity|].
  simpl. unfold visit_child. simpl.
  destruct (if is_dir n && recursive then _ else _) as [d'|e]; simpl; [|reflexivity].
  apply IH.
Qed.

Lemma manifests_Dir (recursive : bool) (directory : Path)
  (children : list (string * node)) :
  manifests recursive directory (Dir children) =
  flat_map (manifests_of_child recursive directory) children.
Proof.
  induction children as [|[name n] rest IH]; [reflexivity|].
  simpl. unfold manifests_of_child at 1. simpl. f_equal. exact IH.
Qed.

Lemma find_all_app (ms ms' : list (Path * string)) (d : Dependencies) :
  find_all (ms ++ ms') d = (d' <-? find_all ms d ; find_all ms' d').
Proof.
  revert d. induction ms as [|[folder content] ms IH]; intros d; simpl; [reflexivity|].
  destruct (_find_dependencies (joinpath folder ZON) (File content) d); simpl;
    [apply IH | reflexivity].
Qed.

(** The walk runs the extractor over the manifests in scope, in order. *)
Lemma collect_find_all (recursive : bool) (n : node) :
  forall (directory : Path) (d : Dependencies),
    is_dir n = true ->
    _collect_dependencies directory n d recursive =
    find_all (manifests recursive directory n) d.
Proof.
  induction n as [content| |children IH] using node_ind;
    intros directory d D; try discriminate.
  clear D. rewrite collect_Dir, manifests_Dir. revert d.
  induction IH as [|[name n] rest Hn _ IHrest]; intros d; [reflexivity|].
  cbn [iterdir_loop flat_map]. rewrite find_all_app.
  assert (visit_child directory recursive d (name, n) =
          find_all (manifests_of_child recursive directory (name, n)) d) as ->.
  { unfold visit_child, manifests_of_child. cbn [fst snd] in *.
    destruct n as [content|sub|]; cbn [is_dir is_file andb].
    - rewrite name_of_joinpath.
      destruct (String.eqb_spec name ZON) as [->|]; [|reflexivity].
      cbn [find_all].
      now destruct (_find_dependencies (joinpath directory ZON) (File content) d).
    - destruct recursive; [|reflexivity]. exact (Hn _ _ eq_refl).
    - reflexivity. }
  destruct (find_all (manifests_of_child recursive directory (name, n)) d);
    cbn [bind_result]; [apply IHrest | reflexivity].
Qed.

Lemma get_dependencies_find_all (root : Path) (children : list (string * node))
  (recursive : bool) :
  get_dependencies root (Dir children) recursive =
  find_all (manifests recursive root (Dir children)) [].
Proof. unfold get_dependencies. now apply collect_find_all. Qed.

(** *** The manifests in scope, by their paths *)

Lemma reaches_manifest_inv (n : node) (rel : list string) (m : node) :
  reaches n (rel ++ [ZON]) m -> exists children, n = Dir children.
Proof.
  intros R. destruct rel; simpl in R; inversion R; subst; eauto.
Qed.

Lemma manifests_in_scope (recursive : bool) (n : node) :
  forall (root folder : Path) (content : string),
    In (folder, content) (manifests recursive root n) <->
    in_scope recursive root n folder content.
Proof.
  induction n as [c| |children IH] using node_ind; intros root folder content.
  - split; [contradiction|]. intros [rel [_ [R _]]].
    apply reaches_manifest_inv in R. destruct R as [? R]. discriminate R.
  - split; [contradiction|]. intros [rel [_ [R _]]].
    apply reaches_manifest_inv in R. destruct R as [? R]. discriminate R.
  - rewrite manifests_Dir, in_flat_map. rewrite Forall_forall in IH. split.
    + intros [[name n] [I M]]. specialize (IH _ I). cbn [snd] in IH.
      unfold manifests_of_child in M. cbn [fst snd] in M.
      destruct n as [c|sub|]; [| |contradiction].
      * destruct (String.eqb_spec name ZON) as [->|]; [|contradiction].
        destruct M as [[= <- <-]|[]].
        exists []. split; [now rewrite app_nil_r|]. split; [|reflexivity].
        apply reaches_step with (child := File c); [exact I | constructor].
      * destruct recursive; [|contradiction].
        apply IH in M. destruct M as [rel [-> [R _]]].
        exists (name :: rel). split; [unfold joinpath; now rewrite <- app_assoc|].
        split; [|discriminate].
        apply reaches_step with (child := Dir sub); assumption.
    + intros [rel [-> [R Hr]]]. destruct rel as [|name rel]; simpl in R.
      * inversion R as [|? ? child ? ? I R']; subst.
        inversion R'; subst.
        exists (ZON, File content). split; [assumption|].
        unfold manifests_of_child. cbn [fst snd].
        rewrite String.eqb_refl, app_nil_r. now left.
      * destruct recursive; [|specialize (Hr eq_refl); discriminate].
        inversion R as [|? ? child ? ? I R']; subst.
        exists (name, child). split; [assumption|].
        destruct (reaches_manifest_inv _ _ _ R') as [sub ->].
        unfold manifests_of_child. cbn [fst snd].
        apply (IH _ I). exists rel.
        split; [unfold joinpath; now rewrite <- app_assoc|].
        split; [assumption | discriminate].
Qed.

(** *** Running the extractor over the manifests *)

Lemma find_all_cons (folder : Path) (content : string)
  (rest : list (Path * string)) (d : Dependencies) :
  find_all ((folder, content) :: rest) d =
  (vs <-? urls_of content ; find_all rest (extend folder vs d)).
Proof.
  cbn [find_all]. rewrite find_dependencies_urls.
  now destruct (urls_of content).
Qed.

Lemma find_all_error (ms : list (Path * string)) (d : Dependencies) (e : exn) :
  find_all ms d = Err e -> e = IndexError.
Proof.
  revert d. induction ms as [|[folder content] rest IH]; intros d.
  - discriminate.
  - rewrite find_all_cons. destruct (urls_of content) as [vs|e'] eqn:U; simpl.
    + apply IH.
    + intros [= <-]. now apply extract_error in U.
Qed.

Lemma find_all_ok (ms : list (Path * string)) (d : Dependencies) :
  Forall (fun m => exists vs, urls_of (snd m) = Ok vs) ms <->
  exists d', find_all ms d = Ok d'.
Proof.
  revert d. induction ms as [|[folder content] rest IH]; intros d.
  - split; [now exists d | constructor].
  - rewrite find_all_cons. split.
    + intros F. inversion F as [|? ? [vs U] F']; subst. simpl in U.
      rewrite U. simpl. now apply IH.
    + intros [d' E]. destruct (urls_of content) as [vs|] eqn:U; [|discriminate].
      constructor; [simpl; eauto|]. apply (IH (extend folder vs d)). eauto.
Qed.

Lemma find_all_bad (ms : list (Path * string)) (d : Dependencies)
  (m : Path * string) (e : exn) :
  In m ms -> urls_of (snd m) = Err e -> find_all ms d = Err IndexError.
Proof.
  intros I U. destruct (find_all ms d) as [d'|e'] eqn:E.
  - assert (exists d', find_all ms d = Ok d') as X by eauto.
    apply find_all_ok in X. rewrite Forall_forall in X.
    destruct (X _ I) as [vs V]. congruence.
  - f_equal. now apply find_all_error in E.
Qed.

Lemma find_all_empty (ms : list (Path * string)) (d : Dependencies) :
  Forall (fun m => urls_of (snd m) = Ok []) ms -> find_all ms d = Ok d.
Proof.
  induction 1 as [|[folder content] rest U _ IH]; [reflexivity|].
  rewrite find_all_cons. simpl in U. rewrite U. exact IH.
Qed.

Lemma group_of_cons (k folder : Path) (content : string) (rest : list (Path * string)) :
  group_of k ((folder, content) :: rest) =
  (if Path_eq_dec folder k then urls_or_nil content else []) ++ group_of k rest.
Proof. reflexivity. Qed.

(** The group of every folder after the walk. *)
Lemma find_all_get (ms : list (Path * string)) (d d' : Dependencies) (k : Path) :
  find_all ms d = Ok d' -> dd_get k d' = dd_get k d ++ group_of k ms.
Proof.
  revert d. induction ms as [|[folder content] rest IH]; intros d.
  - intros [= <-]. now rewrite app_nil_r.
  - rewrite find_all_cons, group_of_cons. unfold urls_or_nil.
    destruct (urls_of content) as [vs|]; [|discriminate]. simpl.
    intros E. rewrite (IH _ E), dd_get_extend.
    destruct (Path_eq_dec folder k); [now rewrite app_assoc | reflexivity].
Qed.

Lemma find_all_nonempty (ms : list (Path * string)) (d d' : Dependencies) :
  find_all ms d = Ok d' -> nonempty_groups d -> nonempty_groups d'.
Proof.
  revert d. induction ms as [|[folder content] rest IH]; intros d.
  - now intros [= <-].
  - rewrite find_all_cons. destruct (urls_of content) as [vs|]; [|discriminate].
    simpl. intros E Hd. apply (IH _ E). now apply nonempty_extend.
Qed.

Lemma find_all_nil_iff (ms : list (Path * string)) (d d' : Dependencies) :
  find_all ms d = Ok d' ->
  (d' = [] <-> d = [] /\ Forall (fun m => urls_of (snd m) = Ok []) ms).
Proof.
  revert d. induction ms as [|[folder content] rest IH]; intros d.
  - intros [= <-]. split; [now split | tauto].
  - rewrite find_all_cons. destruct (urls_of content) as [vs|] eqn:U; [|discriminate].
    simpl. intros E. rewrite (IH _ E), extend_nil_iff. split.
    + intros [[-> ->] F]. split; [reflexivity|]. now constructor.
    + intros [-> F]. inversion F as [|? ? U' F']; subst. simpl in U'.
      rewrite U in U'. injection U' as ->. tauto.
Qed.

Lemma has_key_dd_get (k : Path) (d : Dependencies) :
  nonempty_groups d -> (has_key k d = true <-> dd_get k d <> []).
Proof.
  induction 1 as [|[k0 vs] d N _ IH]; simpl.
  - split; [discriminate | congruence].
  - destruct (Path_eq_dec k0 k); [|exact IH]. simpl in N. tauto.
Qed.

Lemma has_key_In (k : Path) (d : Dependencies) :
  has_key k d = true <-> exists vs, In (k, vs) d.
Proof.
  induction d as [|[k0 vs] d IH]; simpl.
  - split; [discriminate | intros [? []]].
  - destruct (Path_eq_dec k0 k) as [->|N].
    + split; [eauto | reflexivity].
    + rewrite IH. split.
      * intros [ws I]. eauto.
      * intros [ws [[= -> _]|I]]; [congruence | eauto].
Qed.

(** *** The result of [get_dependencies] *)

Lemma group_of_In (k : Path) (ms : list (Path * string)) (u : string) :
  In u (group_of k ms) <->
  exists content, In (k, content) ms /\ In u (urls_or_nil content).
Proof.
  unfold group_of. rewrite in_flat_map. split.
  - intros [[folder content] [I U]]. cbn [fst snd] in U.
    destruct (Path_eq_dec folder k) as [->|]; [eauto | contradiction].
  - intros [content [I U]]. exists (k, content). split; [assumption|].
    cbn [fst snd]. now destruct (Path_eq_dec k k).
Qed.

Lemma in_scope_flat (root : Path) (children : list (string * node))
  (folder : Path) (content : string) :
  in_scope false root (Dir children) folder content <->
  folder = root /\ In (ZON, File content) children.
Proof.
  split.
  - intros [rel [-> [R E]]]. rewrite (E eq_refl) in *. rewrite app_nil_r.
    split; [reflexivity|]. simpl in R.
    inversion R as [|? ? child ? ? I R']; subst. now inversion R'; subst.
  - intros [-> I]. exists []. rewrite app_nil_r. split; [reflexivity|].
    split; [|reflexivity].
    apply reaches_step with (child := File content); [assumption | constructor].
Qed.

Lemma in_scope_deep (root : Path) (fs : node) (folder : Path) (content : string) :
  in_scope true root fs folder content <->
  exists rel, folder = root ++ rel /\ reaches fs (rel ++ [ZON]) (File content).
Proof.
  split.
  - intros [rel [E [R _]]]. eauto.
  - intros [rel [E R]]. exists rel. repeat split; [assumption.. | discriminate].
Qed.

Section Walk.

Variables (root : Path) (children : list (string * node)) (recursive : bool).

Let fs : node := Dir children.

Lemma walk_total :
  (forall folder content,
      in_scope recursive root fs folder content -> exists vs, urls_of content = Ok vs)
  <-> exists deps, get_dependencies root fs recursive = Ok deps.
Proof.
  unfold fs. rewrite get_dependencies_find_all, <- find_all_ok, Forall_forall. split.
  - intros A [folder content] I. apply (A folder). now apply manifests_in_scope.
  - intros A folder content I. apply manifests_in_scope in I. exact (A _ I).
Qed.

Lemma walk_error (folder : Path) (content : string) (e : exn) :
  in_scope recursive root fs folder content ->
  urls_of content = Err e ->
  get_dependencies root fs recursive = Err IndexError.
Proof.
  unfold fs. intros I U. rewrite get_dependencies_find_all.
  apply manifests_in_scope in I. exact (find_all_bad _ _ _ _ I U).
Qed.

Variable deps : Dependencies.
Hypothesis walked : get_dependencies root fs recursive = Ok deps.

Lemma walk_extracts (folder : Path) (content : string) :
  in_scope recursive root fs folder content -> exists vs, urls_of content = Ok vs.
Proof. revert folder content. apply walk_total. eauto. Qed.

Lemma walk_groups (k : Path) (u : string) :
  In u (dd_get k deps) <->
  exists content vs,
    in_scope recursive root fs k content /\ urls_of content = Ok vs /\ In u vs.
Proof.
  pose proof walked as W. unfold fs in W. rewrite get_dependencies_find_all in W.
  rewrite (find_all_get _ _ _ k W). cbn [dd_get app]. rewrite group_of_In. split.
  - intros [content [I U]]. apply manifests_in_scope in I.
    destruct (walk_extracts _ _ I) as [vs V]. exists content, vs.
    unfold urls_or_nil in U. rewrite V in U. auto.
  - intros [content [vs [I [V U]]]]. exists content.
    split; [now apply manifests_in_scope|]. unfold urls_or_nil. now rewrite V.
Qed.

Lemma walk_nonempty : nonempty_groups deps.
Proof.
  pose proof walked as W. unfold fs in W. rewrite get_dependencies_find_all in W.
  apply (find_all_nonempty _ _ _ W). constructor.
Qed.

Lemma walk_keys (k : Path) :
  has_key k deps = true <->
  exists content vs,
    in_scope recursive root fs k content /\ urls_of content = Ok vs /\ vs <> [].
Proof.
  rewrite (has_key_dd_get _ _ walk_nonempty). split.
  - intros N. destruct (dd_get k deps) as [|u us] eqn:G; [congruence|].
    assert (In u (dd_get k deps)) as I by (rewrite G; now left).
    apply walk_groups in I. destruct I as [content [vs [I [V U]]]].
    exists content, vs. repeat split; try assumption. now destruct vs.
  - intros [content [[|v vs] [I [V N]]]]; [congruence|].
    assert (In v (dd_get k deps)) as J.
    { apply walk_groups. exists content, (v :: vs). repeat split; auto. now left. }
    now destruct (dd_get k deps).
Qed.

Lemma walk_nil :
  deps = [] <->
  forall folder content,
    in_scope recursive root fs folder content -> urls_of content = Ok [].
Proof.
  pose proof walked as W. unfold fs in W. rewrite get_dependencies_find_all in W.
  rewrite (find_all_nil_iff _ _ _ W), Forall_forall. split.
  - intros [_ A] folder content I. apply manifests_in_scope in I. exact (A _ I).
  - intros A. split; [reflexivity|]. intros [folder content] I.
    apply (A folder). now apply manifests_in_scope.
Qed.

End Walk.

End WalkFacts.

(** ** The reconciler *)

Module RunFacts.

Import StrFacts.

(** [get_base] keeps what precedes the first [#], and raises when there is
    none. *)
Lemma get_base_cases (url : string) :
  get_base url =
  match after Str.hash url with
  | Some _ => Ok match before Str.hash url with Some b => b | None => url end
  | None => Err (RuntimeError "Unsupported URL format")
  end.
Proof.
  unfold get_base. rewrite split_cons.
  destruct (after Str.hash url) as [r|]; [|reflexivity].
  rewrite (split_cons _ r). reflexivity.
Qed.

Lemma get_base_no_hash (url : string) :
  Str.mem Str.hash url = false ->
  get_base url = Err (RuntimeError "Unsupported URL format").
Proof.
  intros M. rewrite get_base_cases. apply after_none in M. now rewrite M.
Qed.


Lemma is_save_fetch (url : string) : is_save (fetch_call url) = false.
Proof. reflexivity. Qed.

Lemma is_save_save (folder : Path) (base : string) :
  is_save (save_call folder base) = true.
Proof. reflexivity. Qed.

Section Run.

Context {World : Type} `{Oracle World}.

(** *** Loops *)

Lemma for_each_app {A : Type} (xs ys : list A) (body : A -> M World unit)
  (s : State World) :
  for_each (xs ++ ys) body s =
  match for_each xs body s with
  | (Ok _, s1) => for_each ys body s1
  | (Err e, s1) => (Err e, s1)
  end.
Proof.
  revert s. induction xs as [|x xs IH]; intros s; simpl; [reflexivity|].
  unfold bind. destruct (body x s) as [[[]|e] s1]; [apply IH | reflexivity].
Qed.

Lemma for_each_map {A B : Type} (g : A -> B) (xs : list A)
  (body : B -> M World unit) (s : State World) :
  for_each (map g xs) body s = for_each xs (fun x => body (g x)) s.
Proof.
  revert s. induction xs as [|x xs IH]; intros s; simpl; [reflexivity|].
  unfold bind. destruct (body (g x) s) as [[[]|e] s1]; [apply IH | reflexivity].
Qed.

(** The two nested loops of [main] visit the declarations in order. *)
Lemma for_each_nested (f : Path -> string -> M World unit) (d : Dependencies)
  (s : State World) :
  for_each d (fun '(folder, urls) => for_each urls (fun url => f folder url)) s =
  for_each (declarations d) (fun p => f (fst p) (snd p)) s.
Proof.
  revert s. induction d as [|[folder urls] d IH]; intros s; [reflexivity|].
  unfold declarations. cbn [flat_map fst snd for_each].
  rewrite for_each_app, for_each_map. cbn [fst snd]. unfold bind.
  destruct (for_each urls _ s) as [[[]|e] s1]; [apply IH | reflexivity].
Qed.

(** A loop stops at the first iteration that raises. *)
Lemma for_each_abort {A : Type} (pre post : list A) (x : A)
  (body : A -> M World unit) (s s1 s2 : State World) (e : exn) :
  for_each pre body s = (Ok tt, s1) ->
  body x s1 = (Err e, s2) ->
  for_each (pre ++ x :: post) body s = (Err e, s2).
Proof.
  intros P X. rewrite for_each_app, P. simpl. unfold bind. now rewrite X.
Qed.

Lemma for_each_fails {A : Type} (xs : list A) (x : A) (body : A -> M World unit) :
  In x xs ->
  (forall s, exists e, fst (body x s) = Err e) ->
  forall s, exists e, fst (for_each xs body s) = Err e.
Proof.
  intros I F. induction xs as [|y xs IH]; [contradiction|]. intros s.
  simpl. unfold bind. destruct (body y s) as [[[]|e] s1] eqn:B.
  - destruct I as [->|I]; [|now apply IH].
    destruct (F s) as [e E]. rewrite B in E. discriminate.
  - now exists e.
Qed.

(** *** [main] *)

Lemma main_walk_error (args : Args) (fs : node) (s : State World) (e : exn) :
  get_dependencies (root args) fs (recursive args) = Err e ->
  main args fs s = (Err e, s).
Proof. unfold main, bind. now intros ->. Qed.

Lemma main_empty (args : Args) (fs : node) (s : State World) :
  get_dependencies (root args) fs (recursive args) = Ok [] ->
  main args fs s =
  (Ok 0%Z, mkState (world s) (calls s) (stdout s ++ no_dependencies_message)).
Proof. unfold main, bind. now intros ->. Qed.

Lemma main_found (args : Args) (fs : node) (d : Dependencies) (s : State World) :
  get_dependencies (root args) fs (recursive args) = Ok d ->
  d <> [] ->
  main args fs s =
  match reconcile (update args) d s with
  | (Ok _, s') => (Ok 0%Z, s')
  | (Err e, s') => (Err e, s')
  end.
Proof.
  unfold main, reconcile, bind. intros -> N. simpl lift. unfold ret at 1.
  destruct d as [|g d]; [congruence|].
  rewrite <- for_each_nested.
  now destruct (for_each (g :: d) _ s) as [[[]|e] s'].
Qed.

(** *** One declaration *)

Lemma get_hash_effect (url : string) (s s' : State World) (r : result string) :
  get_hash url s = (r, s') ->
  calls s' = calls s ++ [fetch_call url] /\ stdout s' = stdout s.
Proof.
  unfold get_hash, subprocess_run, fetch_call.
  destruct (spawn _ (world s)) as [[rc out] w].
  destruct (rc =? 0)%Z; intros [= <- <-]; split; reflexivity.
Qed.

Lemma update_package_run (folder : Path) (url base : string) (s : State World) :
  get_base url = Ok base ->
  update_package folder url s =
  let '((returncode, _), w) := spawn (save_call folder base) (world s) in
  let s' := mkState w (calls s ++ [save_call folder base]) (stdout s) in
  if (returncode =? 0)%Z then (Ok tt, s')
  else (Err (CalledProcessError returncode ["zig"; "fetch"; "--save"; base]), s').
Proof.
  unfold update_package, bind, subprocess_run, save_call. intros ->. simpl.
  destruct (spawn _ (world s)) as [[rc out] w].
  now destruct (rc =? 0)%Z.
Qed.

Lemma reconcile_url_hashes (update : bool) (folder : Path)
  (url base current latest : string) (s s1 s2 : State World) :
  get_base url = Ok base ->
  get_hash url s = (Ok current, s1) ->
  get_hash base s1 = (Ok latest, s2) ->
  reconcile_url update folder url s =
  if (current =? latest)%string then write (up_to_date_line base) s2
  else if update then
    (update_package folder url ;; write (updated_line base current latest)) s2
  else write (out_of_date_line base) s2.
Proof.
  intros B C L. unfold reconcile_url, bind. rewrite B. simpl lift. unfold ret.
  rewrite C, L. destruct (current =? latest)%string; [reflexivity|].
  now destruct update.
Qed.

Lemma reconcile_url_malformed (update : bool) (folder : Path) (url : string)
  (s : State World) (e : exn) :
  get_base url = Err e -> reconcile_url update folder url s = (Err e, s).
Proof. unfold reconcile_url, bind. now intros ->. Qed.

(** *** The commands a run adds to the log *)

Lemma spawned_only_refl (ok : Call -> bool) (s : State World) : spawned_only ok s s.
Proof. exists []. now rewrite app_nil_r. Qed.

Lemma spawned_only_trans (ok : Call -> bool) (s s1 s2 : State World) :
  spawned_only ok s s1 -> spawned_only ok s1 s2 -> spawned_only ok s s2.
Proof.
  intros [n1 [E1 F1]] [n2 [E2 F2]]. exists (n1 ++ n2).
  rewrite E2, E1, app_assoc, forallb_app, F1, F2. now split.
Qed.

Lemma spawned_only_same_calls (ok : Call -> bool) (s s' : State World) :
  calls s' = calls s -> spawned_only ok s s'.
Proof. intros E. exists []. now rewrite app_nil_r. Qed.

Lemma get_hash_spawned (ok : Call -> bool) (url : string) (s : State World) :
  ok (fetch_call url) = true ->
  spawned_only ok s (snd (get_hash url s)).
Proof.
  intros O. destruct (get_hash url s) as [r s'] eqn:E.
  apply get_hash_effect in E. destruct E as [E _].
  exists [fetch_call url]. simpl. now rewrite O.
Qed.

Lemma reconcile_url_no_save (folder : Path) (url : string) (s : State World) :
  spawned_only (fun c => negb (is_save c)) s (snd (reconcile_url false folder url s)).
Proof.
  unfold reconcile_url, bind.
  destruct (get_base url) as [base|e]; simpl lift; unfold ret, raise;
    [|apply spawned_only_refl].
  pose proof (get_hash_spawned (fun c => negb (is_save c)) url s eq_refl) as S1.
  destruct (get_hash url s) as [[current|e] s1]; [|exact S1].
  pose proof (get_hash_spawned (fun c => negb (is_save c)) base s1 eq_refl) as S2.
  destruct (get_hash base s1) as [[latest|e] s2];
    [|exact (spawned_only_trans _ _ _ _ S1 S2)].
  apply (spawned_only_trans _ _ _ _ S1). apply (spawned_only_trans _ _ _ _ S2).
  destruct (current =? latest)%string; now apply spawned_only_same_calls.
Qed.

Lemma for_each_spawned {A : Type} (ok : Call -> bool) (body : A -> M World unit) :
  (forall x s, spawned_only ok s (snd (body x s))) ->
  forall xs s, spawned_only ok s (snd (for_each xs body s)).
Proof.
  intros B. induction xs as [|x xs IH]; intros s; [apply spawned_only_refl|].
  simpl. unfold bind. specialize (B x s).
  destruct (body x s) as [[[]|e] s1]; [|exact B].
  exact (spawned_only_trans _ _ _ _ B (IH s1)).
Qed.

End Run.

End RunFacts.

(** * The claims of the specification *)

Import StrFacts DictFacts ExtractFacts WalkFacts RunFacts.

(** C5, as stated, fails: on a manifest whose [.url] line has no quote the
    extractor raises instead of returning, and on one whose [.url] line has a
    single quote it returns a value although the line has no pair of quotes. *)
Lemma C5_counterexample :
  _find_dependencies ["build.zig.zon"] (File ".url = foo") [] = Err IndexError
  /\ quoted_values (".url = " ++ String Str.dquote "foo") = []
  /\ _find_dependencies ["build.zig.zon"] (File (".url = " ++ String Str.dquote "foo")) []
     = Ok [([], ["foo"])].
Proof. repeat split. Qed.

(** C5 (amended): for every manifest in which each non-comment trimmed line
    that begins with [.url] has at least two double-quote characters, the
    extractor returns, and what it appends to the group of the manifest's
    folder is exactly the quoted values of those lines, in file order; the
    other groups are untouched, and a comment line appends nothing, whatever
    it contains. *)
Theorem C5_extractor_quoted_values (folder : Path) (content : string) (d : Dependencies) :
  Forall (fun raw => selected raw = true ->
                     2 <= Str.count Str.dquote (Str.strip raw))
         (Str.readlines content) ->
  exists d',
    _find_dependencies (joinpath folder ZON) (File content) d = Ok d'
    /\ dd_get folder d' = dd_get folder d ++ quoted_values content
    /\ (forall k, k <> folder -> dd_get k d' = dd_get k d)
    /\ (forall raw d0, Str.startswith (Str.strip raw) "//" = true ->
                       find_line folder d0 raw = Ok d0).
Proof.
  intros F. exists (extend folder (quoted_values content) d). split; [|split; [|split]].
  - rewrite find_dependencies_urls. unfold urls_of.
    rewrite (extract_quoted _ F). reflexivity.
  - rewrite dd_get_extend. now destruct (Path_eq_dec folder folder).
  - intros k N. rewrite dd_get_extend.
    destruct (Path_eq_dec folder k); [congruence | reflexivity].
  - intros raw d0 C. apply find_line_skip. now apply selected_comment.
Qed.

Lemma C5_extractor_quoted_values_witness :
  exists d',
    _find_dependencies (joinpath ["proj"] ZON) (File sample_manifest) [] = Ok d'
    /\ dd_get ["proj"] d' = dd_get ["proj"] [] ++ quoted_values sample_manifest
    /\ (forall k, k <> ["proj"] -> dd_get k d' = dd_get k [])
    /\ (forall raw d0, Str.startswith (Str.strip raw) "//" = true ->
                       find_line ["proj"] d0 raw = Ok d0).
Proof.
  apply (C5_extractor_quoted_values ["proj"] sample_manifest []).
  evaluate (Str.readlines sample_manifest).
  repeat (constructor; [vm_compute; intros; try discriminate; lia|]).
  constructor.
Defined.

(** C9: a manifest with a non-comment trimmed line that begins with [.url]
    and has no double-quote character makes the extractor raise [IndexError];
    nothing handles it, so a run with such a manifest in scope ends with that
    exception, having spawned and written nothing, and with a non-zero exit
    status. When such a line has exactly one double-quote character, the
    value appended is everything after that quote. *)
Theorem C9_url_line_without_a_pair_of_quotes {World : Type} `{Oracle World} :
  (forall (folder : Path) (content : string) (d : Dependencies) (raw : string),
      In raw (Str.readlines content) ->
      selected raw = true ->
      Str.mem Str.dquote (Str.strip raw) = false ->
      _find_dependencies (joinpath folder ZON) (File content) d = Err IndexError)
  /\ (forall (args : Args) (children : list (string * node)) (s : State World)
        (folder : Path) (content raw : string),
        in_scope (recursive args) (root args) (Dir children) folder content ->
        In raw (Str.readlines content) ->
        selected raw = true ->
        Str.mem Str.dquote (Str.strip raw) = false ->
        main args (Dir children) s = (Err IndexError, s)
        /\ exit_status (fst (main args (Dir children) s)) <> 0%Z)
  /\ (forall (folder : Path) (d : Dependencies) (raw : string),
        selected raw = true ->
        Str.count Str.dquote (Str.strip raw) = 1 ->
        exists v,
          after Str.dquote (Str.strip raw) = Some v
          /\ find_line folder d raw = Ok (dd_append folder v (dd_getitem folder d))).
Proof.
  assert (forall content raw,
             In raw (Str.readlines content) -> selected raw = true ->
             Str.mem Str.dquote (Str.strip raw) = false ->
             urls_of content = Err IndexError) as bad.
  { intros content raw I S M. unfold urls_of.
    exact (extract_bad_line _ _ I S (line_url_no_quote _ M)). }
  split; [|split].
  - intros folder content d raw I S M.
    rewrite find_dependencies_urls, (bad _ _ I S M). reflexivity.
  - intros args children s folder content raw I L S M.
    assert (main args (Dir children) s = (Err IndexError, s)) as E.
    { apply main_walk_error. exact (walk_error _ _ _ _ _ _ I (bad _ _ L S M)). }
    rewrite E. split; [reflexivity | discriminate].
  - intros folder d raw S C.
    destruct (line_url_one_quote _ C) as [v [A L]]. exists v. split; [exact A|].
    rewrite (find_line_selected _ _ _ S), L. reflexivity.
Qed.

Lemma C9_url_line_without_a_pair_of_quotes_witness :
  _find_dependencies (joinpath ["proj"] ZON) (File (".url = foo" ++ nl)) [] = Err IndexError
  /\ (main (mkArgs ["proj"] true true)
           (Dir [("lib", Dir [("build.zig.zon", File (".url = foo" ++ nl))])])
           (start [(0%Z, "h")])
      = (Err IndexError, start [(0%Z, "h")])
      /\ exit_status
           (fst (main (mkArgs ["proj"] true true)
                      (Dir [("lib", Dir [("build.zig.zon", File (".url = foo" ++ nl))])])
                      (start [(0%Z, "h")]))) <> 0%Z)
  /\ (exists v,
        after Str.dquote (Str.strip ("  .url = " ++ String Str.dquote "foo,")) = Some v
        /\ find_line ["proj"] [] ("  .url = " ++ String Str.dquote "foo,")
           = Ok (dd_append ["proj"] v (dd_getitem ["proj"] []))).
Proof.
  destruct (@C9_url_line_without_a_pair_of_quotes Script scripted) as [A [B C]].
  split; [|split].
  - apply (A ["proj"] (".url = foo" ++ nl)%string [] (".url = foo" ++ nl)%string);
      [now left | reflexivity | reflexivity].
  - apply (B (mkArgs ["proj"] true true) _ _ ["proj"; "lib"]
             (".url = foo" ++ nl)%string (".url = foo" ++ nl)%string);
      [|now left | reflexivity | reflexivity].
    apply manifests_in_scope. now left.
  - apply (C ["proj"] [] ("  .url = " ++ String Str.dquote "foo,")%string);
      reflexivity.
Defined.

(** C10: in the mapping [get_dependencies] returns every key is bound to a
    non-empty list; the mapping is empty exactly when every manifest in scope
    yields no URL; a folder is a key exactly when a manifest of that folder
    yields at least one URL, and a manifest that yields none leaves the
    mapping as it was. *)
Theorem C10_groups_are_nonempty (root : Path) (fs : node) (recursive : bool)
  (deps : Dependencies) :
  get_dependencies root fs recursive = Ok deps ->
  (forall k vs, In (k, vs) deps -> vs <> [])
  /\ (deps = [] <->
      forall folder content,
        in_scope recursive root fs folder content -> urls_of content = Ok [])
  /\ (forall k, In k (keys deps) <->
                exists content vs,
                  in_scope recursive root fs k content
                  /\ urls_of content = Ok vs /\ vs <> [])
  /\ (forall folder content d,
        urls_of content = Ok [] ->
        _find_dependencies (joinpath folder ZON) (File content) d = Ok d).
Proof.
  intros W. destruct fs as [c|children|]; try discriminate W.
  split; [|split; [|split]].
  - intros k vs I. pose proof (walk_nonempty _ _ _ _ W) as N.
    unfold nonempty_groups in N. rewrite Forall_forall in N. exact (N _ I).
  - exact (walk_nil _ _ _ _ W).
  - intros k. rewrite <- (walk_keys _ _ _ _ W), has_key_In. unfold keys.
    rewrite in_map_iff. split.
    + intros [[k' vs] [E I]]. simpl in E. subst k'. eauto.
    + intros [vs I]. now exists (k, vs).
  - intros folder content d U. rewrite find_dependencies_urls, U. reflexivity.
Qed.

Lemma C10_groups_are_nonempty_witness :
  (forall k vs,
      In (k, vs) [(["proj"; "src"], ["b#2"; "c#3"]);
                  (["proj"], ["https://example.com/pkg.tar.gz#abcdef1234"])] ->
      vs <> [])
  /\ ([(["proj"; "src"], ["b#2"; "c#3"]);
       (["proj"], ["https://example.com/pkg.tar.gz#abcdef1234"])] = [] <->
      forall folder content,
        in_scope true ["proj"] (Dir sample_tree) folder content ->
        urls_of content = Ok [])
  /\ (forall k,
        In k (keys [(["proj"; "src"], ["b#2"; "c#3"]);
                    (["proj"], ["https://example.com/pkg.tar.gz#abcdef1234"])]) <->
        exists content vs,
          in_scope true ["proj"] (Dir sample_tree) k content
          /\ urls_of content = Ok vs /\ vs <> [])
  /\ (forall folder content d,
        urls_of content = Ok [] ->
        _find_dependencies (joinpath folder ZON) (File content) d = Ok d).
Proof.
  apply (C10_groups_are_nonempty ["proj"] (Dir sample_tree) true). reflexivity.
Defined.

(** C6: when every manifest in scope can be extracted, the walk returns a
    mapping. Without the recursive flag a URL is in the group of a folder
    exactly when the folder is the root and the URL comes from a manifest
    that is a child of the root, so the only possible key is the root and
    nothing below a subdirectory is read. With the flag, a URL is in the
    group of a folder exactly when it comes from a manifest reached from the
    root through any number of directories, and the folder is the directory
    that holds that manifest. *)
Theorem C6_tree_walker (root : Path) (children : list (string * node))
  (recursive : bool) :
  (forall folder content,
      in_scope recursive root (Dir children) folder content ->
      exists vs, urls_of content = Ok vs) ->
  exists deps,
    get_dependencies root (Dir children) recursive = Ok deps
    /\ (recursive = false ->
        (forall k u,
            In u (dd_get k deps) <->
            k = root
            /\ exists content vs,
                In (ZON, File content) children
                /\ urls_of content = Ok vs /\ In u vs)
        /\ (forall k, In k (keys deps) -> k = root))
    /\ (recursive = true ->
        (forall k u,
            In u (dd_get k deps) <->
            exists rel content vs,
              k = root ++ rel
              /\ reaches (Dir children) (rel ++ [ZON]) (File content)
              /\ urls_of content = Ok vs /\ In u vs)
        /\ (forall k, In k (keys deps) ->
                      exists rel content,
                        k = root ++ rel
                        /\ reaches (Dir children) (rel ++ [ZON]) (File content))).
Proof.
  intros X. apply walk_total in X. destruct X as [deps W]. exists deps.
  assert (forall k, In k (keys deps) ->
                    exists content, in_scope recursive root (Dir children) k content)
    as K.
  { intros k I. unfold keys in I. apply in_map_iff in I.
    destruct I as [[k' vs] [E I]]. simpl in E. subst k'.
    assert (has_key k deps = true) as HK by (apply has_key_In; eauto).
    apply (walk_keys _ _ _ _ W) in HK. destruct HK as [content [_ [I' _]]]. eauto. }
  split; [exact W|]. split; intros ->.
  - split.
    + intros k u. rewrite (walk_groups _ _ _ _ W). split.
      * intros [content [vs [I [U V]]]]. apply in_scope_flat in I.
        destruct I as [-> I]. split; [reflexivity|]. eauto.
      * intros [-> [content [vs [I [U V]]]]]. exists content, vs.
        split; [now apply in_scope_flat | now split].
    + intros k I. destruct (K k I) as [content S].
      now apply in_scope_flat in S.
  - split.
    + intros k u. rewrite (walk_groups _ _ _ _ W). split.
      * intros [content [vs [I [U V]]]]. apply in_scope_deep in I.
        destruct I as [rel [-> R]]. exists rel, content, vs. auto.
      * intros [rel [content [vs [-> [R [U V]]]]]]. exists content, vs.
        split; [apply in_scope_deep; eauto | now split].
    + intros k I. destruct (K k I) as [content S].
      apply in_scope_deep in S. destruct S as [rel [-> R]]. eauto.
Qed.

(** Every manifest of the sample tree can be extracted. *)
Lemma sample_tree_extracts (recursive : bool) (folder : Path) (content : string) :
  in_scope recursive ["proj"] (Dir sample_tree) folder content ->
  exists vs, urls_of content = Ok vs.
Proof.
  intros I. apply manifests_in_scope in I.
  destruct recursive; vm_compute in I;
    repeat (destruct I as [[= <- <-]|I]; [eexists; vm_compute; reflexivity|]);
    contradiction.
Qed.

Lemma C6_tree_walker_witness :
  (exists deps,
      get_dependencies ["proj"] (Dir sample_tree) false = Ok deps
      /\ (forall k u,
            In u (dd_get k deps) <->
            k = ["proj"]
            /\ exists content vs,
                In (ZON, File content) sample_tree
                /\ urls_of content = Ok vs /\ In u vs)
      /\ (forall k, In k (keys deps) -> k = ["proj"]))
  /\ (exists deps,
        get_dependencies ["proj"] (Dir sample_tree) true = Ok deps
        /\ (forall k u,
              In u (dd_get k deps) <->
              exists rel content vs,
                k = ["proj"] ++ rel
                /\ reaches (Dir sample_tree) (rel ++ [ZON]) (File content)
                /\ urls_of content = Ok vs /\ In u vs)
        /\ (forall k, In k (keys deps) ->
                      exists rel content,
                        k = ["proj"] ++ rel
                        /\ reaches (Dir sample_tree) (rel ++ [ZON]) (File content))).
Proof.
  split.
  - destruct (C6_tree_walker ["proj"] sample_tree false (sample_tree_extracts false))
      as [deps [W [F _]]].
    exists deps. split; [exact W | exact (F eq_refl)].
  - destruct (C6_tree_walker ["proj"] sample_tree true (sample_tree_extracts true))
      as [deps [W [_ T]]].
    exists deps. split; [exact W | exact (T eq_refl)].
Defined.

(** C4: the base of the sample URL is the part before its fragment; a URL
    without [#] makes [get_base] raise. Nothing handles the exception: the
    declaration that raises it ends the run where it stands, and a run whose
    declarations include such a URL ends with an exception, hence with a
    non-zero exit status. *)
Theorem C4_base_url {World : Type} `{Oracle World} :
  get_base "https://example.com/pkg.tar.gz#abcdef1234"
  = Ok "https://example.com/pkg.tar.gz"
  /\ (forall url,
        Str.mem Str.hash url = false ->
        get_base url = Err (RuntimeError "Unsupported URL format"))
  /\ (forall (args : Args) (fs : node) (deps : Dependencies)
        (pre post : list (Path * string)) (folder : Path) (url : string)
        (s s1 : State World),
        get_dependencies (root args) fs (recursive args) = Ok deps ->
        declarations deps = pre ++ (folder, url) :: post ->
        for_each pre (fun p => reconcile_url (update args) (fst p) (snd p)) s
        = (Ok tt, s1) ->
        Str.mem Str.hash url = false ->
        main args fs s = (Err (RuntimeError "Unsupported URL format"), s1))
  /\ (forall (args : Args) (fs : node) (deps : Dependencies)
        (folder : Path) (urls : list string) (url : string) (s : State World),
        get_dependencies (root args) fs (recursive args) = Ok deps ->
        In (folder, urls) deps -> In url urls ->
        Str.mem Str.hash url = false ->
        (exists e, fst (main args fs s) = Err e)
        /\ exit_status (fst (main args fs s)) <> 0%Z).
Proof.
  split; [reflexivity|]. split; [exact get_base_no_hash|]. split.
  - intros args fs deps pre post folder url s s1 W D P M.
    assert (deps <> []) as N.
    { intros ->. destruct pre; discriminate D. }
    rewrite (main_found _ _ _ _ W N). unfold reconcile in *. rewrite D.
    rewrite (for_each_abort pre post (folder, url) _ _ _ _ _ P
               (reconcile_url_malformed _ folder _ _ _ (get_base_no_hash _ M))).
    reflexivity.
  - intros args fs deps folder urls url s W I J M.
    assert (deps <> []) as N by (intros ->; contradiction).
    assert (In (folder, url) (declarations deps)) as D.
    { unfold declarations. apply in_flat_map. exists (folder, urls).
      split; [assumption|]. simpl. now apply in_map. }
    assert (forall s0 : State World,
               exists e, fst (reconcile_url (update args) (fst (folder, url))
                                            (snd (folder, url)) s0) = Err e) as B.
    { intros s0. eexists. simpl.
      now rewrite (reconcile_url_malformed _ _ _ _ _ (get_base_no_hash _ M)). }
    destruct (for_each_fails _ _
                (fun p => reconcile_url (update args) (fst p) (snd p)) D B s)
      as [e E].
    rewrite (main_found _ _ _ _ W N). unfold reconcile.
    destruct (for_each (declarations deps) _ s) as [[[]|e'] s']; [discriminate E|].
    split; [now exists e' | discriminate].
Qed.

Lemma C4_base_url_witness :
  get_base "nofragment" = Err (RuntimeError "Unsupported URL format")
  /\ main (mkArgs ["proj"] false true)
          (Dir [("build.zig.zon",
                 File (".url = " ++ quoted "a#1" ++ nl ++ ".url = " ++ quoted "nofragment"
                       ++ nl ++ ".url = " ++ quoted "c#3" ++ nl))])
          (start [(0%Z, "h"); (0%Z, "h"); (0%Z, "h"); (0%Z, "h")])
     = (Err (RuntimeError "Unsupported URL format"),
        mkState [(0%Z, "h"); (0%Z, "h")] [fetch_call "a#1"; fetch_call "a"]
                (up_to_date_line "a"))
  /\ ((exists e,
         fst (main (mkArgs ["proj"] false true)
                   (Dir [("build.zig.zon", File (".url = " ++ quoted "nofragment"))])
                   (start [])) = Err e)
      /\ exit_status
           (fst (main (mkArgs ["proj"] false true)
                      (Dir [("build.zig.zon", File (".url = " ++ quoted "nofragment"))])
                      (start []))) <> 0%Z).
Proof.
  destruct (@C4_base_url Script scripted) as [_ [A [B C]]]. split; [|split].
  - apply (A "nofragment"). reflexivity.
  - apply (B (mkArgs ["proj"] false true) _ [(["proj"], ["a#1"; "nofragment"; "c#3"])]
             [(["proj"], "a#1")] [(["proj"], "c#3")] ["proj"] "nofragment");
      reflexivity.
  - apply (C (mkArgs ["proj"] false true) _ [(["proj"], ["nofragment"])]
             ["proj"] ["nofragment"] "nofragment");
      [reflexivity | now left | now left | reflexivity].
Defined.

(** C8: when no manifest in scope yields a URL, in particular when there is
    no manifest in scope, the collected mapping is empty, [main] writes the
    one explanatory message, which has no line break, spawns nothing and
    returns 0. *)
Theorem C8_nothing_found {World : Type} `{Oracle World} (args : Args)
  (children : list (string * node)) (s : State World) :
  (forall folder content,
      in_scope (recursive args) (root args) (Dir children) folder content ->
      urls_of content = Ok []) ->
  get_dependencies (root args) (Dir children) (recursive args) = Ok []
  /\ main args (Dir children) s
     = (Ok 0%Z,
        mkState (world s) (calls s)
          (stdout s
           ++ "no build.zig.zon file found (or no URLs in it). did you run the command from the wrong directory?"))
  /\ Str.mem Str.LF no_dependencies_message = false
  /\ exit_status (fst (main args (Dir children) s)) = 0%Z.
Proof.
  intros Z.
  assert (get_dependencies (root args) (Dir children) (recursive args) = Ok []) as W.
  { assert (exists deps,
               get_dependencies (root args) (Dir children) (recursive args) = Ok deps)
      as [deps W].
    { apply walk_total. intros folder content I. exists []. exact (Z _ _ I). }
    rewrite W. f_equal. now apply (walk_nil _ _ _ _ W). }
  split; [exact W|]. rewrite (main_empty _ _ _ W). repeat split.
Qed.

Lemma C8_nothing_found_witness :
  get_dependencies ["proj"]
    (Dir [("src", Dir [("build.zig.zon", File sample_sub_manifest)]);
          ("build.zig.zon", File (".{" ++ nl ++ "  // .url = " ++ quoted "x#1" ++ nl ++ "}"))])
    false = Ok []
  /\ main (mkArgs ["proj"] false true)
          (Dir [("src", Dir [("build.zig.zon", File sample_sub_manifest)]);
                ("build.zig.zon",
                 File (".{" ++ nl ++ "  // .url = " ++ quoted "x#1" ++ nl ++ "}"))])
          (start [(0%Z, "h")])
     = (Ok 0%Z,
        mkState [(0%Z, "h")] []
          ("" ++ "no build.zig.zon file found (or no URLs in it). did you run the command from the wrong directory?"))
  /\ Str.mem Str.LF no_dependencies_message = false
  /\ exit_status
       (fst (main (mkArgs ["proj"] false true)
               (Dir [("src", Dir [("build.zig.zon", File sample_sub_manifest)]);
                     ("build.zig.zon",
                      File (".{" ++ nl ++ "  // .url = " ++ quoted "x#1" ++ nl ++ "}"))])
               (start [(0%Z, "h")]))) = 0%Z.
Proof.
  apply (@C8_nothing_found Script scripted (mkArgs ["proj"] false true)).
  intros folder content I. apply manifests_in_scope in I. vm_compute in I.
  destruct I as [[= <- <-]|[]]. reflexivity.
Defined.

Section Declaration.

Context {World : Type} `{Oracle World}.

(** What the two hash queries of a declaration leave behind. *)
Lemma hashes_effect (url base current latest : string) (s s1 s2 : State World) :
  get_hash url s = (Ok current, s1) ->
  get_hash base s1 = (Ok latest, s2) ->
  calls s2 = calls s ++ [fetch_call url; fetch_call base]
  /\ stdout s2 = stdout s.
Proof.
  intros C L. apply get_hash_effect in C, L.
  destruct C as [C1 C2], L as [L1 L2].
  rewrite L1, C1, <- app_assoc, L2, C2. now split.
Qed.

(** C3: when the two hashes are equal the declaration gives exactly the line
    [[<base>] already up to date]; the only commands spawned are the two hash
    queries, so the save mode is not invoked, whatever the update flag. *)
Theorem C3_already_up_to_date (update : bool) (folder : Path)
  (url base current latest : string) (s s1 s2 : State World) :
  get_base url = Ok base ->
  get_hash url s = (Ok current, s1) ->
  get_hash base s1 = (Ok latest, s2) ->
  current = latest ->
  reconcile_url update folder url s
  = (Ok tt,
     mkState (world s2)
       (calls s ++ [fetch_call url; fetch_call base])
       (stdout s ++ "[" ++ base ++ "] already up to date" ++ nl))
  /\ forallb is_save [fetch_call url; fetch_call base] = false.
Proof.
  intros B C L E. split; [|reflexivity].
  rewrite (reconcile_url_hashes _ _ _ _ _ _ _ _ _ B C L).
  apply String.eqb_eq in E. rewrite E.
  destruct (hashes_effect _ _ _ _ _ _ _ C L) as [Ec Eo].
  unfold write. rewrite Ec, Eo. reflexivity.
Qed.

(** C7: when the hashes differ and the update flag is not set the
    declaration gives exactly the line [[<base>] out of date]; and in a whole
    run without the flag no command in save mode is ever spawned. *)
Theorem C7_out_of_date :
  (forall (folder : Path) (url base current latest : string) (s s1 s2 : State World),
      get_base url = Ok base ->
      get_hash url s = (Ok current, s1) ->
      get_hash base s1 = (Ok latest, s2) ->
      current <> latest ->
      reconcile_url false folder url s
      = (Ok tt,
         mkState (world s2)
           (calls s ++ [fetch_call url; fetch_call base])
           (stdout s ++ "[" ++ base ++ "] out of date" ++ nl)))
  /\ (forall (args : Args) (fs : node) (s : State World),
        update args = false ->
        exists new,
          calls (snd (main args fs s)) = calls s ++ new
          /\ forallb (fun c => negb (is_save c)) new = true).
Proof.
  split.
  - intros folder url base current latest s s1 s2 B C L N.
    rewrite (reconcile_url_hashes _ _ _ _ _ _ _ _ _ B C L).
    apply String.eqb_neq in N. rewrite N.
    destruct (hashes_effect _ _ _ _ _ _ _ C L) as [Ec Eo].
    unfold write. rewrite Ec, Eo. reflexivity.
  - intros args fs s U.
    change (spawned_only (fun c => negb (is_save c)) s (snd (main args fs s))).
    destruct (get_dependencies (root args) fs (recursive args)) as [deps|e] eqn:W.
    + destruct deps as [|g deps].
      * rewrite (main_empty _ _ _ W). now apply spawned_only_same_calls.
      * rewrite (main_found _ _ _ _ W) by discriminate. rewrite U.
        pose proof (for_each_spawned (fun c => negb (is_save c))
                      (fun p => reconcile_url false (fst p) (snd p))
                      (fun p s0 => reconcile_url_no_save (fst p) (snd p) s0)
                      (declarations (g :: deps)) s) as R.
        unfold reconcile.
        now destruct (for_each (declarations (g :: deps)) _ s) as [[[]|e] s'].
    + rewrite (main_walk_error _ _ _ _ W). apply spawned_only_refl.
Qed.

(** C2: when the hashes differ and the update flag is set, the declaration
    spawns, after the two hash queries, exactly one command in save mode:
    [zig fetch --save <base>] with the folder of the group as working
    directory. When that command exits with status 0 the declaration writes
    exactly the line [[<base>] updated <current[:7]> -> <latest[:7]>];
    otherwise it writes nothing and raises. *)
Theorem C2_updated (folder : Path) (url base current latest : string)
  (s s1 s2 : State World) :
  get_base url = Ok base ->
  get_hash url s = (Ok current, s1) ->
  get_hash base s1 = (Ok latest, s2) ->
  current <> latest ->
  calls (snd (reconcile_url true folder url s))
  = calls s ++ [fetch_call url; fetch_call base;
                mkCall ["zig"; "fetch"; "--save"; base] (Some folder)]
  /\ (forall returncode out w,
        spawn (save_call folder base) (world s2) = ((returncode, out), w) ->
        reconcile_url true folder url s
        = if (returncode =? 0)%Z then
            (Ok tt,
             mkState w
               (calls s ++ [fetch_call url; fetch_call base; save_call folder base])
               (stdout s ++ "[" ++ base ++ "] updated " ++ Str.take 7 current
                ++ " -> " ++ Str.take 7 latest ++ nl))
          else
            (Err (CalledProcessError returncode ["zig"; "fetch"; "--save"; base]),
             mkState w
               (calls s ++ [fetch_call url; fetch_call base; save_call folder base])
               (stdout s))).
Proof.
  intros B C L N.
  rewrite (reconcile_url_hashes _ _ _ _ _ _ _ _ _ B C L).
  apply String.eqb_neq in N. rewrite N.
  destruct (hashes_effect _ _ _ _ _ _ _ C L) as [Ec Eo].
  unfold bind. rewrite (update_package_run _ _ _ _ B). rewrite Ec, Eo.
  split.
  - destruct (spawn (save_call folder base) (world s2)) as [[rc out] w].
    destruct (rc =? 0)%Z; simpl; now rewrite <- app_assoc.
  - intros rc out w S. rewrite S.
    destruct (rc =? 0)%Z; simpl; now rewrite <- app_assoc.
Qed.

(** C1 (amended): when the save command of a declaration exits with a
    non-zero status, [CalledProcessError] propagates out of [main]: the run
    ends in the state the failed command left, so no later declaration is
    queried, updated or reported, and the exit status is not 0. *)
Theorem C1_failed_update_aborts (args : Args) (fs : node) (deps : Dependencies)
  (pre post : list (Path * string)) (folder : Path)
  (url base current latest : string) (s s1 s2 s3 : State World)
  (returncode : Z) (out : string) (w : World) :
  get_dependencies (root args) fs (recursive args) = Ok deps ->
  update args = true ->
  declarations deps = pre ++ (folder, url) :: post ->
  for_each pre (fun p => reconcile_url true (fst p) (snd p)) s = (Ok tt, s1) ->
  get_base url = Ok base ->
  get_hash url s1 = (Ok current, s2) ->
  get_hash base s2 = (Ok latest, s3) ->
  current <> latest ->
  spawn (save_call folder base) (world s3) = ((returncode, out), w) ->
  returncode <> 0%Z ->
  main args fs s
  = (Err (CalledProcessError returncode ["zig"; "fetch"; "--save"; base]),
     mkState w
       (calls s1 ++ [fetch_call url; fetch_call base; save_call folder base])
       (stdout s1))
  /\ exit_status (fst (main args fs s)) <> 0%Z.
Proof.
  intros W U D P B C L N S R.
  assert (deps <> []) as NE.
  { intros ->. destruct pre; discriminate D. }
  assert (reconcile_url true folder url s1
          = (Err (CalledProcessError returncode ["zig"; "fetch"; "--save"; base]),
             mkState w
               (calls s1 ++ [fetch_call url; fetch_call base; save_call folder base])
               (stdout s1))) as X.
  { rewrite (reconcile_url_hashes _ _ _ _ _ _ _ _ _ B C L).
    apply String.eqb_neq in N. rewrite N.
    destruct (hashes_effect _ _ _ _ _ _ _ C L) as [Ec Eo].
    unfold bind. rewrite (update_package_run _ _ _ _ B), S.
    apply Z.eqb_neq in R. rewrite R, Eo, Ec, <- app_assoc. reflexivity. }
  assert (main args fs s
          = (Err (CalledProcessError returncode ["zig"; "fetch"; "--save"; base]),
             mkState w
               (calls s1 ++ [fetch_call url; fetch_call base; save_call folder base])
               (stdout s1))) as E.
  { rewrite (main_found _ _ _ _ W NE), U. unfold reconcile. rewrite D.
    now rewrite (for_each_abort pre post (folder, url) _ _ _ _ _ P X). }
  rewrite E. split; [reflexivity | discriminate].
Qed.

End Declaration.

(** C1, as stated, fails: the save command of the second declaration fails,
    and the run ends there with the exception. The third declaration is never
    processed: no command mentions its URL or its base, the outcomes meant
    for it are still in the script, and the output holds the line of the
    first declaration only. *)
Lemma C1_counterexample :
  fst (main (mkArgs ["proj"] false true) three_urls (start failing_save))
  = Err (CalledProcessError 2 ["zig"; "fetch"; "--save"; "b"])
  /\ calls (snd (main (mkArgs ["proj"] false true) three_urls (start failing_save)))
     = [fetch_call "a#1"; fetch_call "a"; fetch_call "b#2"; fetch_call "b";
        save_call ["proj"] "b"]
  /\ world (snd (main (mkArgs ["proj"] false true) three_urls (start failing_save)))
     = [(0%Z, "H3"); (0%Z, "H3")]
  /\ stdout (snd (main (mkArgs ["proj"] false true) three_urls (start failing_save)))
     = ("[a] already up to date" ++ nl)%string.
Proof. repeat split. Qed.

Lemma C1_failed_update_aborts_witness :
  main (mkArgs ["proj"] false true) three_urls (start failing_save)
  = (Err (CalledProcessError 2 ["zig"; "fetch"; "--save"; "b"]),
     mkState [(0%Z, "H3"); (0%Z, "H3")]
       ([fetch_call "a#1"; fetch_call "a"]
        ++ [fetch_call "b#2"; fetch_call "b"; save_call ["proj"] "b"])
       ("[a] already up to date" ++ nl))
  /\ exit_status (fst (main (mkArgs ["proj"] false true) three_urls (start failing_save)))
     <> 0%Z.
Proof.
  apply (@C1_failed_update_aborts Script scripted
           (mkArgs ["proj"] false true) three_urls
           [(["proj"], ["a#1"; "b#2"; "c#3"])]
           [(["proj"], "a#1")] [(["proj"], "c#3")] ["proj"] "b#2" "b" "H1" "H2"
           (start failing_save)
           (mkState [(0%Z, "H1"); (0%Z, "H2"); (2%Z, ""); (0%Z, "H3"); (0%Z, "H3")]
              [fetch_call "a#1"; fetch_call "a"] ("[a] already up to date" ++ nl))
           (mkState [(0%Z, "H2"); (2%Z, ""); (0%Z, "H3"); (0%Z, "H3")]
              [fetch_call "a#1"; fetch_call "a"; fetch_call "b#2"]
              ("[a] already up to date" ++ nl))
           (mkState [(2%Z, ""); (0%Z, "H3"); (0%Z, "H3")]
              [fetch_call "a#1"; fetch_call "a"; fetch_call "b#2"; fetch_call "b"]
              ("[a] already up to date" ++ nl))
           2%Z "" [(0%Z, "H3"); (0%Z, "H3")]);
    try reflexivity; discriminate.
Defined.

Lemma C2_updated_witness :
  calls (snd (reconcile_url true ["proj"; "src"] "b#2"
                (start [(0%Z, "1220aaaaaaaa"); (0%Z, "1220bbbbbbbb"); (0%Z, "")])))
  = [] ++ [fetch_call "b#2"; fetch_call "b";
           mkCall ["zig"; "fetch"; "--save"; "b"] (Some ["proj"; "src"])]
  /\ reconcile_url true ["proj"; "src"] "b#2"
       (start [(0%Z, "1220aaaaaaaa"); (0%Z, "1220bbbbbbbb"); (0%Z, "")])
     = (Ok tt,
        mkState []
          [fetch_call "b#2"; fetch_call "b"; save_call ["proj"; "src"] "b"]
          ("[b] updated 1220aaa -> 1220bbb" ++ nl)).
Proof.
  destruct (@C2_updated Script scripted ["proj"; "src"] "b#2" "b"
              "1220aaaaaaaa" "1220bbbbbbbb"
              (start [(0%Z, "1220aaaaaaaa"); (0%Z, "1220bbbbbbbb"); (0%Z, "")])
              (mkState [(0%Z, "1220bbbbbbbb"); (0%Z, "")] [fetch_call "b#2"] "")
              (mkState [(0%Z, "")] [fetch_call "b#2"; fetch_call "b"] "")
              eq_refl eq_refl eq_refl) as [A B]; [discriminate|].
  split; [exact A | exact (B 0%Z "" [] eq_refl)].
Defined.

Lemma C3_already_up_to_date_witness :
  reconcile_url true ["proj"] "a#1" (start [(0%Z, "H"); (0%Z, "H"); (0%Z, "")])
  = (Ok tt,
     mkState [(0%Z, "")] ([] ++ [fetch_call "a#1"; fetch_call "a"])
       ("" ++ "[" ++ "a" ++ "] already up to date" ++ nl))
  /\ forallb is_save [fetch_call "a#1"; fetch_call "a"] = false.
Proof.
  apply (@C3_already_up_to_date Script scripted true ["proj"] "a#1" "a" "H" "H"
           (start [(0%Z, "H"); (0%Z, "H"); (0%Z, "")])
           (mkState [(0%Z, "H"); (0%Z, "")] [fetch_call "a#1"] "")
           (mkState [(0%Z, "")] [fetch_call "a#1"; fetch_call "a"] ""));
    reflexivity.
Defined.

Lemma C7_out_of_date_witness :
  reconcile_url false ["proj"] "a#1" (start [(0%Z, "H1"); (0%Z, "H2")])
  = (Ok tt,
     mkState [] ([] ++ [fetch_call "a#1"; fetch_call "a"])
       ("" ++ "[" ++ "a" ++ "] out of date" ++ nl))
  /\ (exists new,
        calls (snd (main (mkArgs ["proj"] true false) (Dir sample_tree)
                         (start [(0%Z, "H1"); (0%Z, "H2"); (0%Z, "H"); (0%Z, "H")])))
        = [] ++ new
        /\ forallb (fun c => negb (is_save c)) new = true).
Proof.
  destruct (@C7_out_of_date Script scripted) as [A B]. split.
  - apply (A ["proj"] "a#1" "a" "H1" "H2"
             (start [(0%Z, "H1"); (0%Z, "H2")])
             (mkState [(0%Z, "H2")] [fetch_call "a#1"] "")
             (mkState [] [fetch_call "a#1"; fetch_call "a"] ""));
      try reflexivity; discriminate.
  - apply (B (mkArgs ["proj"] true false)). reflexivity.
Defined.

(** * Further properties of the code *)

(** ** Notions *)

(** A string of whitespace characters only. *)
Fixpoint blank (s : string) : bool :=
  match s with
  | EmptyString => true
  | String c s' => Str.isspace c && blank s'
  end.

(** The concatenation of a list of strings. *)
Fixpoint concat_lines (lines : list string) : string :=
  match lines with
  | [] => ""
  | l :: rest => l ++ concat_lines rest
  end.


#[local] Unset Elimination Schemes.

(** No directory of the tree has two entries of the same name. *)
Inductive unique_names : node -> Prop :=
| unique_File (content : string) : unique_names (File content)
| unique_Other : unique_names Other
| unique_Dir (children : list (string * node)) :
    NoDup (map fst children) ->
    Forall (fun entry => unique_names (snd entry)) children ->
    unique_names (Dir children).

#[local] Set Elimination Schemes.

(** The groups a sequence of manifests gives when no two of them share a
    folder: one per manifest that yields a URL, in the same order. *)
Definition groups_in_order (ms : list (Path * string)) : Dependencies :=
  filter (fun g => negb (Nat.eqb (length (snd g)) 0))
         (map (fun m => (fst m, urls_or_nil (snd m))) ms).


(** The line reported for a declaration. *)
Definition report (update : bool) (declaration : Path * string) (line : string)
  : Prop :=
  exists base,
    get_base (snd declaration) = Ok base
    /\ (line = up_to_date_line base
        \/ (update = false /\ line = out_of_date_line base)
        \/ (update = true
            /\ exists current latest, line = updated_line base current latest)).

(** The two hash queries of a declaration. *)
Definition queries (declaration : Path * string) : list Call :=
  match get_base (snd declaration) with
  | Ok base => [fetch_call (snd declaration); fetch_call base]
  | Err _ => []
  end.

(** The commands a declaration may spawn, whatever happens. *)
Definition declared_call (update : bool) (declaration : Path * string) (c : Call)
  : Prop :=
  c = fetch_call (snd declaration)
  \/ exists base,
      get_base (snd declaration) = Ok base
      /\ (c = fetch_call base
          \/ (update = true /\ c = save_call (fst declaration) base)).

(** A script in which every command of a run over [three_urls] succeeds:
    [a] is up to date and [b] and [c] are stale. *)
Definition all_succeed : Script :=
  [(0%Z, "H"); (0%Z, "H");
   (0%Z, "1220aaaaaaaa"); (0%Z, "1220bbbbbbbb"); (0%Z, "");
   (0%Z, "1220cccccccc"); (0%Z, "1220dddddddd"); (0%Z, "")].

(** ** The extractor, line by line *)

Module LineFacts.

Import StrFacts ExtractFacts.

Lemma mem_app (c : ascii) (a b : string) :
  Str.mem c (a ++ b) = Str.mem c a || Str.mem c b.
Proof.
  induction a as [|c' a IH]; simpl; [reflexivity|].
  now rewrite IH, orb_assoc.
Qed.

Lemma before_app (c : ascii) (a r : string) :
  Str.mem c a = false -> before c (a ++ String c r) = Some a.
Proof.
  induction a as [|c' a IH]; simpl.
  - now rewrite Ascii.eqb_refl.
  - destruct (Ascii.eqb c' c); [discriminate|]. simpl. intros M.
    now rewrite (IH M).
Qed.

Lemma after_app (c : ascii) (a r : string) :
  Str.mem c a = false -> after c (a ++ String c r) = Some r.
Proof.
  induction a as [|c' a IH]; simpl.
  - now rewrite Ascii.eqb_refl.
  - destruct (Ascii.eqb c' c); [discriminate | exact IH].
Qed.

Lemma before_clean (c : ascii) (s a : string) :
  before c s = Some a -> Str.mem c a = false.
Proof.
  revert a. induction s as [|c' s IH]; simpl; [discriminate|]. intros a.
  destruct (Ascii.eqb c' c) eqn:E.
  - now intros [= <-].
  - destruct (before c s) as [a'|]; simpl; [|discriminate].
    intros [= <-]. simpl. now rewrite E, (IH a' eq_refl).
Qed.


Lemma line_url_clean (raw v : string) :
  line_url raw = Ok v -> Str.mem Str.dquote v = false.
Proof.
  rewrite line_url_cases.
  destruct (after Str.dquote (Str.strip raw)) as [r|]; [|discriminate].
  destruct (before Str.dquote r) as [b|] eqn:B; intros [= <-].
  - exact (before_clean _ _ _ B).
  - now apply before_none.
Qed.


Lemma extract_values (lines : list string) (vs : list string) :
  extract lines = Ok vs ->
  length vs = length (filter selected lines)
  /\ Forall (fun v => Str.mem Str.dquote v = false) vs.
Proof.
  revert vs. induction lines as [|raw rest IH]; simpl; intros vs.
  - intros [= <-]. split; [reflexivity | constructor].
  - destruct (selected raw); [|apply IH].
    destruct (line_url raw) as [v|] eqn:L; [|discriminate].
    destruct (extract rest) as [ws|]; [|discriminate]. simpl.
    intros [= <-]. destruct (IH ws eq_refl) as [N C]. split.
    + simpl. now rewrite N.
    + constructor; [exact (line_url_clean _ _ L) | exact C].
Qed.

(** *** Whitespace around a line *)

Lemma lstrip_blank (s : string) : blank s = true -> Str.lstrip s = "".
Proof.
  induction s as [|c s IH]; simpl; [reflexivity|].
  destruct (Str.isspace c); [exact IH | discriminate].
Qed.

Lemma rstrip_blank (s : string) : blank s = true -> Str.rstrip s = "".
Proof.
  induction s as [|c s IH]; simpl; [reflexivity|].
  destruct (Str.isspace c); [|discriminate]. simpl. intros B. now rewrite (IH B).
Qed.

Lemma lstrip_blank_app (a s : string) :
  blank a = true -> Str.lstrip (a ++ s) = Str.lstrip s.
Proof.
  induction a as [|c a IH]; simpl; [reflexivity|].
  destruct (Str.isspace c); [exact IH | discriminate].
Qed.

Lemma lstrip_app_blank (s b : string) :
  blank b = true ->
  Str.lstrip (s ++ b) = if blank s then "" else (Str.lstrip s ++ b)%string.
Proof.
  intros B. induction s as [|c s IH]; simpl.
  - now apply lstrip_blank.
  - destruct (Str.isspace c); [exact IH | reflexivity].
Qed.

Lemma rstrip_app_blank (s b : string) :
  blank b = true -> Str.rstrip (s ++ b) = Str.rstrip s.
Proof.
  intros B. induction s as [|c s IH]; simpl.
  - now apply rstrip_blank.
  - now rewrite IH.
Qed.

Lemma strip_padding (a s b : string) :
  blank a = true -> blank b = true -> Str.strip (a ++ s ++ b) = Str.strip s.
Proof.
  intros A B. unfold Str.strip.
  rewrite (lstrip_blank_app _ _ A), (lstrip_app_blank _ _ B).
  destruct (blank s) eqn:E.
  - now rewrite (lstrip_blank _ E).
  - now apply rstrip_app_blank.
Qed.

End LineFacts.

Import LineFacts.


(** X2: when the extractor returns, it has appended to the group of the
    manifest's folder exactly one value per non-comment trimmed line that
    begins with [.url], and no appended value contains a double-quote
    character. *)
Theorem X2_one_value_per_url_line (folder : Path) (content : string)
  (d d' : Dependencies) :
  _find_dependencies (joinpath folder ZON) (File content) d = Ok d' ->
  exists vs,
    dd_get folder d' = dd_get folder d ++ vs
    /\ length vs = length (filter selected (Str.readlines content))
    /\ Forall (fun v => Str.mem Str.dquote v = false) vs.
Proof.
  rewrite find_dependencies_urls. unfold urls_of.
  destruct (extract (Str.readlines content)) as [vs|] eqn:E; [|discriminate].
  simpl. intros [= <-]. exists vs. split.
  - rewrite dd_get_extend. now destruct (Path_eq_dec folder folder).
  - now apply extract_values.
Qed.

Lemma X2_one_value_per_url_line_witness :
  exists vs,
    dd_get ["proj"; "src"] [(["proj"; "src"], ["b#2"; "c#3"])]
    = dd_get ["proj"; "src"] [] ++ vs
    /\ length vs = length (filter selected (Str.readlines sample_sub_manifest))
    /\ Forall (fun v => Str.mem Str.dquote v = false) vs.
Proof.
  apply (X2_one_value_per_url_line ["proj"; "src"] sample_sub_manifest []).
  reflexivity.
Defined.

(** X3: whitespace before and after a line changes neither its trimmed form
    nor what the extractor does with it. *)
Theorem X3_whitespace_around_a_line (folder : Path) (d : Dependencies)
  (a raw b : string) :
  blank a = true -> blank b = true ->
  Str.strip (a ++ raw ++ b) = Str.strip raw
  /\ find_line folder d (a ++ raw ++ b) = find_line folder d raw.
Proof.
  intros A B. pose proof (strip_padding a raw b A B) as E. split; [exact E|].
  unfold find_line. now rewrite E.
Qed.

Lemma X3_whitespace_around_a_line_witness :
  Str.strip ("    " ++ (".url = " ++ quoted "a#1" ++ ",") ++ String Str.CR nl)
  = Str.strip (".url = " ++ quoted "a#1" ++ ",")
  /\ find_line ["proj"] []
       ("    " ++ (".url = " ++ quoted "a#1" ++ ",") ++ String Str.CR nl)
     = find_line ["proj"] [] (".url = " ++ quoted "a#1" ++ ",").
Proof.
  apply (X3_whitespace_around_a_line ["proj"] [] "    "
           (".url = " ++ quoted "a#1" ++ ",") (String Str.CR nl));
    reflexivity.
Defined.

(** X4: a line whose trimmed form is [.url], any text without a quote, a
    value without a quote between two double quotes, and any text after it,
    appends exactly that value. *)
Theorem X4_quoted_value_round_trip (folder : Path) (d : Dependencies)
  (raw mid v rest : string) :
  Str.strip raw = (".url" ++ mid ++ quoted v ++ rest)%string ->
  Str.mem Str.dquote mid = false ->
  Str.mem Str.dquote v = false ->
  find_line folder d raw = Ok (dd_append folder v (dd_getitem folder d)).
Proof.
  intros E M V.
  assert (Str.strip raw
          = ((".url" ++ mid) ++ String Str.dquote (v ++ String Str.dquote rest))%string)
    as E'.
  { rewrite E. unfold quoted. simpl. rewrite !StrFacts.append_assoc. reflexivity. }
  assert (selected raw = true) as S.
  { unfold selected. rewrite E. simpl.
    now destruct (mid ++ String Str.dquote ((v ++ String Str.dquote "") ++ rest))%string. }
  rewrite (find_line_selected _ _ _ S), line_url_cases, E'.
  assert (Str.mem Str.dquote (".url" ++ mid) = false) as M' by (simpl; exact M).
  rewrite (after_app _ _ _ M'), (before_app _ _ _ V). reflexivity.
Qed.

Lemma X4_quoted_value_round_trip_witness :
  find_line ["proj"] [] ("   .url = " ++ quoted "https://example.com/x#1" ++ ", // note" ++ nl)
  = Ok (dd_append ["proj"] "https://example.com/x#1" (dd_getitem ["proj"] [])).
Proof.
  apply (X4_quoted_value_round_trip ["proj"] [] _ " = " "https://example.com/x#1"
           ", // note");
    reflexivity.
Defined.

(** X5: [get_base] returns [base] exactly when the URL is [base], a [#] and
    a fragment, with no [#] in [base]: the URL is cut at its first [#], and
    the base it returns has no fragment of its own. *)
Theorem X5_get_base_cuts_at_first_hash (url base : string) :
  get_base url = Ok base <->
  Str.mem Str.hash base = false
  /\ exists fragment, url = (base ++ String Str.hash fragment)%string.
Proof.
  rewrite get_base_cases. split.
  - destruct (after Str.hash url) as [r|] eqn:A; [|discriminate].
    destruct (before Str.hash url) as [b|] eqn:B.
    + intros [= <-]. destruct (StrFacts.before_after _ _ _ _ B A) as [E M].
      split; [exact M | eauto].
    + apply StrFacts.before_none, StrFacts.after_none in B. congruence.
  - intros [M [fragment ->]].
    now rewrite (after_app _ _ _ M), (before_app _ _ _ M).
Qed.

(** ** The walk: keys and order *)

Module OrderFacts.

Import DictFacts ExtractFacts WalkFacts.

Lemma has_key_keys (k : Path) (d : Dependencies) :
  has_key k d = true <-> In k (keys d).
Proof.
  rewrite has_key_In. unfold keys. rewrite in_map_iff. split.
  - intros [vs I]. now exists (k, vs).
  - intros [[k' vs] [E I]]. simpl in E. subst k'. eauto.
Qed.

Lemma keys_append (k : Path) (v : string) (d : Dependencies) :
  keys (dd_append k v d) = keys d.
Proof.
  induction d as [|[k0 vs] d IH]; simpl; [reflexivity|].
  destruct (Path_eq_dec k0 k); simpl; [reflexivity | now f_equal].
Qed.

Lemma nodup_getitem (k : Path) (d : Dependencies) :
  NoDup (keys d) -> NoDup (keys (dd_getitem k d)).
Proof.
  intros N. unfold dd_getitem. destruct (has_key k d) eqn:E; [exact N|].
  unfold keys. rewrite map_app. apply NoDup_app; [exact N | repeat constructor; auto|].
  simpl. intros a I [<-|[]]. apply has_key_keys in I. congruence.
Qed.

Lemma nodup_extend (k : Path) (vs : list string) (d : Dependencies) :
  NoDup (keys d) -> NoDup (keys (extend k vs d)).
Proof.
  revert d. induction vs as [|v vs IH]; intros d N; simpl; [exact N|].
  apply IH. rewrite keys_append. now apply nodup_getitem.
Qed.

Lemma nodup_find_all (ms : list (Path * string)) (d d' : Dependencies) :
  find_all ms d = Ok d' -> NoDup (keys d) -> NoDup (keys d').
Proof.
  revert d. induction ms as [|[folder content] rest IH]; intros d.
  - now intros [= <-].
  - rewrite find_all_cons. destruct (urls_of content) as [vs|]; [|discriminate].
    simpl. intros E N. apply (IH _ E). now apply nodup_extend.
Qed.

(** *** A folder met for the first time *)

Lemma dd_append_last (k : Path) (v : string) (ws : list string) (d : Dependencies) :
  has_key k d = false ->
  dd_append k v (d ++ [(k, ws)]) = d ++ [(k, ws ++ [v])].
Proof.
  induction d as [|[k0 us] d IH]; simpl.
  - intros _. now destruct (Path_eq_dec k k).
  - destruct (Path_eq_dec k0 k); [discriminate|]. intros E. now rewrite (IH E).
Qed.

Lemma extend_last (k : Path) (vs ws : list string) (d : Dependencies) :
  has_key k d = false ->
  extend k vs (d ++ [(k, ws)]) = d ++ [(k, ws ++ vs)].
Proof.
  intros E. revert ws. induction vs as [|v vs IH]; intros ws; simpl.
  - now rewrite app_nil_r.
  - assert (dd_getitem k (d ++ [(k, ws)]) = d ++ [(k, ws)]) as ->.
    { unfold dd_getitem. rewrite has_key_app. simpl.
      destruct (Path_eq_dec k k); [|congruence]. now rewrite orb_true_r. }
    rewrite (dd_append_last _ _ _ _ E), IH, <- app_assoc. reflexivity.
Qed.

Lemma extend_fresh (k : Path) (vs : list string) (d : Dependencies) :
  has_key k d = false ->
  extend k vs d = d ++ match vs with [] => [] | _ :: _ => [(k, vs)] end.
Proof.
  intros E. destruct vs as [|v vs]; simpl; [now rewrite app_nil_r|].
  unfold dd_getitem. rewrite E, (dd_append_last _ _ _ _ E).
  exact (extend_last _ _ _ _ E).
Qed.

Lemma groups_in_order_cons (folder : Path) (content : string)
  (rest : list (Path * string)) :
  groups_in_order ((folder, content) :: rest) =
  match urls_or_nil content with
  | [] => []
  | _ :: _ => [(folder, urls_or_nil content)]
  end ++ groups_in_order rest.
Proof.
  unfold groups_in_order. simpl. now destruct (urls_or_nil content).
Qed.

(** Manifests of pairwise different folders, none of them a key yet, add
    their groups at the end, in order. *)
Lemma find_all_fresh (ms : list (Path * string)) (d d' : Dependencies) :
  NoDup (map fst ms) ->
  (forall m, In m ms -> has_key (fst m) d = false) ->
  find_all ms d = Ok d' ->
  d' = d ++ groups_in_order ms.
Proof.
  revert d. induction ms as [|[folder content] rest IH]; intros d N F.
  - intros [= <-]. now rewrite app_nil_r.
  - rewrite find_all_cons, groups_in_order_cons. unfold urls_or_nil.
    destruct (urls_of content) as [vs|]; [|discriminate]. simpl.
    inversion N as [|? ? NI N']; subst. intros E.
    assert (forall m, In m rest -> has_key (fst m) (extend folder vs d) = false)
      as F'.
    { intros m I. rewrite has_key_extend, (F m (or_intror I)).
      destruct (Path_eq_dec folder (fst m)) as [->|]; [|reflexivity].
      exfalso. apply NI. now apply in_map. }
    rewrite (IH _ N' F' E).
    assert (has_key folder d = false) as K
      by exact (F (folder, content) (or_introl eq_refl)).
    rewrite (extend_fresh _ vs _ K). now rewrite <- app_assoc.
Qed.

(** *** Folders of the manifests of a tree *)

Lemma manifests_folder (recursive : bool) (directory : Path) (n : node)
  (folder : Path) :
  In folder (map fst (manifests recursive directory n)) ->
  exists rel, folder = directory ++ rel.
Proof.
  intros I. apply in_map_iff in I. destruct I as [[f content] [E I]].
  simpl in E. subst f. apply manifests_in_scope in I.
  destruct I as [rel [-> _]]. eauto.
Qed.

Lemma child_folder (recursive : bool) (directory : Path) (entry : string * node)
  (folder : Path) :
  In folder (map fst (manifests_of_child recursive directory entry)) ->
  (fst entry = ZON /\ folder = directory)
  \/ exists rel, folder = directory ++ fst entry :: rel.
Proof.
  destruct entry as [name n]. unfold manifests_of_child. cbn [fst snd].
  destruct n as [content|sub|]; [| |contradiction].
  - destruct (String.eqb_spec name ZON) as [->|]; [|contradiction].
    intros [<-|[]]. now left.
  - destruct recursive; [|contradiction]. intros I.
    apply manifests_folder in I. destruct I as [rel ->]. right. exists rel.
    unfold joinpath. now rewrite <- app_assoc.
Qed.

Lemma child_folder_name (recursive : bool) (directory : Path)
  (e e' : string * node) (folder : Path) :
  In folder (map fst (manifests_of_child recursive directory e)) ->
  In folder (map fst (manifests_of_child recursive directory e')) ->
  fst e = fst e'.
Proof.
  intros I I'. apply child_folder in I, I'.
  assert (forall (name : string) (rel : list string),
             directory <> directory ++ name :: rel) as L.
  { intros name rel E. apply (f_equal (@length string)) in E.
    rewrite length_app in E. simpl in E. lia. }
  destruct I as [[E F]|[rel F]], I' as [[E' F']|[rel' F']].
  - congruence.
  - exfalso. rewrite F in F'. exact (L _ _ F').
  - exfalso. rewrite F' in F. exact (L _ _ F).
  - rewrite F in F'. apply app_inv_head in F'. now injection F'.
Qed.

Lemma manifests_nodup (recursive : bool) (n : node) :
  unique_names n ->
  forall directory, NoDup (map fst (manifests recursive directory n)).
Proof.
  induction n as [content| |children IH] using node_ind; intros U directory;
    try constructor.
  inversion U as [| |? N Us]; subst. clear U.
  rewrite manifests_Dir.
  induction children as [|e rest IHrest]; [constructor|].
  simpl. rewrite map_app.
  inversion IH as [|? ? He Hrest]; subst.
  inversion N as [|? ? NI N']; subst.
  inversion Us as [|? ? Ue Urest]; subst.
  apply NoDup_app.
  - destruct e as [name c]. unfold manifests_of_child. cbn [fst snd] in *.
    destruct c as [content|sub|]; [| |constructor].
    + destruct (name =? ZON)%string; repeat constructor. simpl. tauto.
    + destruct recursive; [|constructor]. now apply He.
  - now apply IHrest.
  - intros folder I I'. rewrite flat_map_concat_map, concat_map in I'.
    apply in_concat in I'. destruct I' as [l [L I']].
    rewrite map_map in L. apply in_map_iff in L. destruct L as [e' [<- L]].
    apply NI. rewrite (child_folder_name _ _ _ _ _ I I'). now apply in_map.
Qed.

End OrderFacts.

Import OrderFacts.

(** X6: the mapping [get_dependencies] returns has one group per folder: no
    folder occurs twice among its keys. *)
Theorem X6_one_group_per_folder (root : Path) (fs : node) (recursive : bool)
  (deps : Dependencies) :
  get_dependencies root fs recursive = Ok deps -> NoDup (keys deps).
Proof.
  destruct fs as [c|children|]; try discriminate.
  rewrite get_dependencies_find_all. intros W.
  apply (nodup_find_all _ _ _ W). constructor.
Qed.

Lemma X6_one_group_per_folder_witness :
  NoDup (keys [(["proj"; "src"], ["b#2"; "c#3"]);
               (["proj"], ["https://example.com/pkg.tar.gz#abcdef1234"])]).
Proof.
  apply (X6_one_group_per_folder ["proj"] (Dir sample_tree) true). reflexivity.
Defined.

Lemma declarations_groups_in_order (ms : list (Path * string)) :
  declarations (groups_in_order ms) =
  flat_map (fun m => map (pair (fst m)) (urls_or_nil (snd m))) ms.
Proof.
  induction ms as [|[folder content] rest IH]; [reflexivity|].
  rewrite groups_in_order_cons. unfold declarations in *.
  rewrite flat_map_app, IH. cbn [flat_map fst snd].
  destruct (urls_or_nil content); cbn [flat_map fst snd app map];
    rewrite ?app_nil_r; reflexivity.
Qed.

(** X7: in a tree where no directory has two entries of the same name, the
    groups of the returned mapping are those of the manifests in scope that
    yield a URL, in the order in which the walk meets the manifests, each
    with its URLs in line order; so the declarations are processed manifest
    by manifest in that order. *)
Theorem X7_groups_in_traversal_order (root : Path) (children : list (string * node))
  (recursive : bool) (deps : Dependencies) :
  unique_names (Dir children) ->
  get_dependencies root (Dir children) recursive = Ok deps ->
  deps = groups_in_order (manifests recursive root (Dir children))
  /\ declarations deps =
     flat_map (fun m => map (pair (fst m)) (urls_or_nil (snd m)))
              (manifests recursive root (Dir children)).
Proof.
  intros U W. rewrite get_dependencies_find_all in W.
  assert (deps = groups_in_order (manifests recursive root (Dir children))) as E.
  { apply (find_all_fresh _ [] _ (manifests_nodup _ _ U root)); [reflexivity | exact W]. }
  split; [exact E|]. rewrite E at 1. apply declarations_groups_in_order.
Qed.

Lemma sample_tree_unique : unique_names (Dir sample_tree).
Proof.
  repeat (constructor; simpl; try (intros F; intuition discriminate)).
Qed.

Lemma X7_groups_in_traversal_order_witness :
  [(["proj"; "src"], ["b#2"; "c#3"]);
   (["proj"], ["https://example.com/pkg.tar.gz#abcdef1234"])]
  = groups_in_order (manifests true ["proj"] (Dir sample_tree))
  /\ declarations [(["proj"; "src"], ["b#2"; "c#3"]);
                   (["proj"], ["https://example.com/pkg.tar.gz#abcdef1234"])]
     = flat_map (fun m => map (pair (fst m)) (urls_or_nil (snd m)))
                (manifests true ["proj"] (Dir sample_tree)).
Proof.
  apply (X7_groups_in_traversal_order ["proj"] sample_tree true);
    [exact sample_tree_unique | reflexivity].
Defined.

Lemma group_of_app (k : Path) (a b : list (Path * string)) :
  group_of k (a ++ b) = group_of k a ++ group_of k b.
Proof. unfold group_of. apply flat_map_app. Qed.

Lemma group_of_absent (k : Path) (ms : list (Path * string)) :
  (forall m, In m ms -> fst m <> k) -> group_of k ms = [].
Proof.
  induction ms as [|[folder content] rest IH]; intros A; [reflexivity|].
  rewrite group_of_cons, IH by (intros m I; apply A; now right).
  destruct (Path_eq_dec folder k) as [E|]; [|reflexivity].
  exfalso. exact (A (folder, content) (or_introl eq_refl) E).
Qed.

Lemma root_group_same (root : Path) (children : list (string * node)) :
  group_of root (manifests true root (Dir children))
  = group_of root (manifests false root (Dir children)).
Proof.
  rewrite !manifests_Dir.
  induction children as [|[name n] rest IH]; [reflexivity|].
  simpl. rewrite !group_of_app, IH. f_equal.
  unfold manifests_of_child. cbn [fst snd].
  destruct n as [content|sub|]; try reflexivity.
  apply group_of_absent. intros [folder content] I E. simpl in E. subst folder.
  apply manifests_in_scope in I. destruct I as [rel [E _]].
  unfold joinpath in E. rewrite <- app_assoc in E.
  apply (f_equal (@length string)) in E. rewrite length_app in E. simpl in E. lia.
Qed.

(** X8: when the recursive walk returns, so does the walk of the root alone;
    the group of the root is the same in both, and without the flag no other
    folder has a group. The flag only adds groups for directories below the
    root. *)
Theorem X8_recursive_flag_keeps_root_group (root : Path)
  (children : list (string * node)) (deep : Dependencies) :
  get_dependencies root (Dir children) true = Ok deep ->
  exists flat,
    get_dependencies root (Dir children) false = Ok flat
    /\ dd_get root flat = dd_get root deep
    /\ (forall k, k <> root -> dd_get k flat = []).
Proof.
  intros W.
  assert (exists flat, get_dependencies root (Dir children) false = Ok flat)
    as [flat F].
  { apply walk_total. intros folder content I.
    apply (walk_extracts _ _ _ _ W folder content).
    destruct I as [rel [E [R _]]]. exists rel. repeat split; try assumption.
    discriminate. }
  exists flat. split; [exact F|].
  rewrite get_dependencies_find_all in W, F. split.
  - rewrite (find_all_get _ _ _ root W), (find_all_get _ _ _ root F).
    simpl dd_get. f_equal. symmetry. apply root_group_same.
  - intros k N. rewrite (find_all_get _ _ _ k F). simpl dd_get.
    apply group_of_absent. intros [folder content] I E. simpl in E. subst folder.
    apply manifests_in_scope, in_scope_flat in I. destruct I as [-> _]. congruence.
Qed.

Lemma X8_recursive_flag_keeps_root_group_witness :
  exists flat,
    get_dependencies ["proj"] (Dir sample_tree) false = Ok flat
    /\ dd_get ["proj"] flat
       = dd_get ["proj"] [(["proj"; "src"], ["b#2"; "c#3"]);
                          (["proj"], ["https://example.com/pkg.tar.gz#abcdef1234"])]
    /\ (forall k, k <> ["proj"] -> dd_get k flat = []).
Proof.
  apply (X8_recursive_flag_keeps_root_group ["proj"] sample_tree). reflexivity.
Defined.

(** ** The reconciler: whole runs *)

Module RunMoreFacts.

Import StrFacts RunFacts.

Section More.

Context {World : Type} `{Oracle World}.

(** One declaration, step by step. *)
Lemma reconcile_url_run (update : bool) (folder : Path) (url : string)
  (s : State World) :
  reconcile_url update folder url s =
  match get_base url with
  | Err e => (Err e, s)
  | Ok base =>
      let '((rc1, current), w1) := spawn (fetch_call url) (world s) in
      if (rc1 =? 0)%Z then
        let '((rc2, latest), w2) := spawn (fetch_call base) w1 in
        if (rc2 =? 0)%Z then
          if (current =? latest)%string then
            (Ok tt,
             mkState w2 (calls s ++ [fetch_call url; fetch_call base])
               (stdout s ++ up_to_date_line base))
          else if update then
            let '((rc3, _), w3) := spawn (save_call folder base) w2 in
            if (rc3 =? 0)%Z then
              (Ok tt,
               mkState w3
                 (calls s ++ [fetch_call url; fetch_call base; save_call folder base])
                 (stdout s ++ updated_line base current latest))
            else
              (Err (CalledProcessError rc3 ["zig"; "fetch"; "--save"; base]),
               mkState w3
                 (calls s ++ [fetch_call url; fetch_call base; save_call folder base])
                 (stdout s))
          else
            (Ok tt,
             mkState w2 (calls s ++ [fetch_call url; fetch_call base])
               (stdout s ++ out_of_date_line base))
        else
          (Err (CalledProcessError rc2 ["zig"; "fetch"; base]),
           mkState w2 (calls s ++ [fetch_call url; fetch_call base]) (stdout s))
      else
        (Err (CalledProcessError rc1 ["zig"; "fetch"; url]),
         mkState w1 (calls s ++ [fetch_call url]) (stdout s))
  end.
Proof.
  unfold reconcile_url, bind.
  destruct (get_base url) as [base|e] eqn:B; [|reflexivity].
  simpl lift. unfold ret, get_hash, subprocess_run, fetch_call.
  destruct (spawn _ (world s)) as [[rc1 current] w1].
  destruct (rc1 =? 0)%Z; [|reflexivity]. cbn [world calls stdout].
  destruct (spawn _ w1) as [[rc2 latest] w2].
  destruct (rc2 =? 0)%Z; [|now rewrite <- app_assoc]. cbn [world calls stdout].
  destruct (current =? latest)%string.
  - unfold write. cbn [world calls stdout]. now rewrite <- app_assoc.
  - destruct update.
    + rewrite (update_package_run _ _ _ _ B). cbn [world calls stdout].
      destruct (spawn (save_call folder base) w2) as [[rc3 out3] w3].
      destruct (rc3 =? 0)%Z; unfold write; cbn [world calls stdout];
        now rewrite <- !app_assoc.
    + unfold write. cbn [world calls stdout]. now rewrite <- app_assoc.
Qed.


(** The seven ways a declaration can go. *)
Lemma reconcile_url_outcome (update : bool) (folder : Path) (url : string)
  (s : State World) :
  (exists e, get_base url = Err e /\ reconcile_url update folder url s = (Err e, s))
  \/ exists base,
      get_base url = Ok base
      /\ ((exists rc w,
              rc <> 0%Z
              /\ reconcile_url update folder url s
                 = (Err (CalledProcessError rc ["zig"; "fetch"; url]),
                    mkState w (calls s ++ [fetch_call url]) (stdout s)))
          \/ (exists rc w,
                rc <> 0%Z
                /\ reconcile_url update folder url s
                   = (Err (CalledProcessError rc ["zig"; "fetch"; base]),
                      mkState w (calls s ++ [fetch_call url; fetch_call base])
                        (stdout s)))
          \/ (exists rc w,
                rc <> 0%Z /\ update = true
                /\ reconcile_url update folder url s
                   = (Err (CalledProcessError rc ["zig"; "fetch"; "--save"; base]),
                      mkState w
                        (calls s ++ [fetch_call url; fetch_call base;
                                     save_call folder base])
                        (stdout s)))
          \/ (exists w,
                reconcile_url update folder url s
                = (Ok tt,
                   mkState w (calls s ++ [fetch_call url; fetch_call base])
                     (stdout s ++ up_to_date_line base)))
          \/ (exists w,
                update = false
                /\ reconcile_url update folder url s
                   = (Ok tt,
                      mkState w (calls s ++ [fetch_call url; fetch_call base])
                        (stdout s ++ out_of_date_line base)))
          \/ (exists w current latest,
                update = true
                /\ reconcile_url update folder url s
                   = (Ok tt,
                      mkState w
                        (calls s ++ [fetch_call url; fetch_call base;
                                     save_call folder base])
                        (stdout s ++ updated_line base current latest)))).
Proof.
  rewrite reconcile_url_run.
  destruct (get_base url) as [base|e]; [right; exists base; split; [reflexivity|] | eauto].
  destruct (spawn (fetch_call url) (world s)) as [[rc1 current] w1].
  destruct (Z.eqb_spec rc1 0); [|left; eauto].
  destruct (spawn (fetch_call base) w1) as [[rc2 latest] w2].
  destruct (Z.eqb_spec rc2 0); [|right; left; eauto].
  destruct (current =? latest)%string; [do 3 right; left; eauto|].
  destruct update; [|do 4 right; left; eauto].
  destruct (spawn (save_call folder base) w2) as [[rc3 out3] w3].
  destruct (Z.eqb_spec rc3 0).
  - do 5 right. eauto 6.
  - do 2 right. left. eauto 6.
Qed.


(** What a declaration that succeeds has written and spawned. *)
Lemma reconcile_url_success (update : bool) (folder : Path) (url : string)
  (s s' : State World) :
  reconcile_url update folder url s = (Ok tt, s') ->
  (exists line,
      stdout s' = (stdout s ++ line)%string /\ report update (folder, url) line)
  /\ exists new,
      calls s' = calls s ++ new
      /\ filter (fun c => negb (is_save c)) new = queries (folder, url).
Proof.
  unfold report, queries. cbn [snd].
  destruct (reconcile_url_outcome update folder url s)
    as [[e' [B ->]]|[base [B [[rc [w [N ->]]]|[[rc [w [N ->]]]|[[rc [w [N [_ ->]]]]
       |[[w ->]|[[w [U ->]]|[w [c [l [U ->]]]]]]]]]]]];
    try discriminate; intros [= <-]; cbn [stdout calls]; rewrite B; split.
  - exists (up_to_date_line base). split; [reflexivity|]. exists base. auto.
  - now exists [fetch_call url; fetch_call base].
  - exists (out_of_date_line base). split; [reflexivity|]. exists base. auto.
  - now exists [fetch_call url; fetch_call base].
  - exists (updated_line base c l). split; [reflexivity|]. exists base.
    split; [reflexivity|]. right. right. eauto.
  - now exists [fetch_call url; fetch_call base; save_call folder base].
Qed.

Lemma reconcile_url_calls (update : bool) (folder : Path) (url : string)
  (s : State World) :
  exists new,
    calls (snd (reconcile_url update folder url s)) = calls s ++ new
    /\ Forall (declared_call update (folder, url)) new.
Proof.
  unfold declared_call. cbn [fst snd].
  destruct (reconcile_url_outcome update folder url s)
    as [[e' [B ->]]|[base [B [[rc [w [N ->]]]|[[rc [w [N ->]]]|[[rc [w [N [U ->]]]]
       |[[w ->]|[[w [U ->]]|[w [c [l [U ->]]]]]]]]]]]];
    cbn [snd calls];
    (eexists; split; [reflexivity|]) || (exists []; split; [now rewrite app_nil_r|]);
    repeat (constructor;
            [first [ now left
                   | right; exists base; split; [exact B|];
                     first [now left | right; now split] ]|]);
    constructor.
Qed.

(** *** Loops, again *)



Lemma for_each_lines {A : Type} (rep : A -> string -> Prop)
  (body : A -> M World unit) :
  (forall x s s', body x s = (Ok tt, s') ->
                  exists line, stdout s' = (stdout s ++ line)%string /\ rep x line) ->
  forall xs s s',
    for_each xs body s = (Ok tt, s') ->
    exists lines,
      stdout s' = (stdout s ++ concat_lines lines)%string /\ Forall2 rep xs lines.
Proof.
  intros B. induction xs as [|x xs IH]; intros s s'; simpl.
  - intros [= <-]. exists []. split; [now rewrite append_nil_r | constructor].
  - unfold bind. destruct (body x s) as [[[]|e] s1] eqn:X; [|discriminate].
    intros E. destruct (B _ _ _ X) as [line [L R]].
    destruct (IH _ _ E) as [lines [Ls Rs]]. exists (line :: lines). split.
    + rewrite Ls, L. simpl. apply append_assoc.
    + now constructor.
Qed.

Lemma for_each_queries {A : Type} (keep : Call -> bool) (q : A -> list Call)
  (body : A -> M World unit) :
  (forall x s s', body x s = (Ok tt, s') ->
                  exists new, calls s' = calls s ++ new /\ filter keep new = q x) ->
  forall xs s s',
    for_each xs body s = (Ok tt, s') ->
    exists new, calls s' = calls s ++ new /\ filter keep new = flat_map q xs.
Proof.
  intros B. induction xs as [|x xs IH]; intros s s'; simpl.
  - intros [= <-]. exists []. now rewrite app_nil_r.
  - unfold bind. destruct (body x s) as [[[]|e] s1] eqn:X; [|discriminate].
    intros E. destruct (B _ _ _ X) as [n1 [C1 F1]].
    destruct (IH _ _ E) as [n2 [C2 F2]]. exists (n1 ++ n2). split.
    + now rewrite C2, C1, app_assoc.
    + now rewrite filter_app, F1, F2.
Qed.

Lemma for_each_calls {A : Type} (Q : A -> Call -> Prop) (body : A -> M World unit) :
  (forall x s, exists new,
        calls (snd (body x s)) = calls s ++ new /\ Forall (Q x) new) ->
  forall xs s,
    exists new,
      calls (snd (for_each xs body s)) = calls s ++ new
      /\ Forall (fun c => exists x, In x xs /\ Q x c) new.
Proof.
  intros B. induction xs as [|x xs IH]; intros s; simpl.
  - exists []. split; [now rewrite app_nil_r | constructor].
  - unfold bind. destruct (B x s) as [n1 [C1 F1]].
    assert (Forall (fun c => exists y, In y (x :: xs) /\ Q y c) n1) as F1'.
    { eapply Forall_impl; [|exact F1]. intros c q. exists x. split; [now left | exact q]. }
    destruct (body x s) as [[[]|e] s1]; cbn [snd] in C1.
    + destruct (IH s1) as [n2 [C2 F2]]. exists (n1 ++ n2). split.
      * now rewrite C2, C1, app_assoc.
      * apply Forall_app. split; [exact F1'|].
        eapply Forall_impl; [|exact F2]. intros c [y [I q]]. exists y.
        split; [now right | exact q].
    + exists n1. now split.
Qed.

End More.

End RunMoreFacts.

Import RunMoreFacts.

Section WholeRuns.

Context {World : Type} `{Oracle World}.

(** X9: when a hash query of a declaration exits with a non-zero status,
    [CalledProcessError] propagates out of [main]: the run ends in the state
    that command left, with nothing written for the declaration. If it is
    the query for the pinned URL, the base URL is not even queried. *)
Theorem X9_failed_hash_query_aborts (args : Args) (fs : node) (deps : Dependencies)
  (pre post : list (Path * string)) (folder : Path) (url base : string)
  (s s1 : State World) :
  get_dependencies (root args) fs (recursive args) = Ok deps ->
  declarations deps = pre ++ (folder, url) :: post ->
  for_each pre (fun p => reconcile_url (update args) (fst p) (snd p)) s = (Ok tt, s1) ->
  get_base url = Ok base ->
  (forall returncode out w,
      spawn (fetch_call url) (world s1) = ((returncode, out), w) ->
      returncode <> 0%Z ->
      main args fs s
      = (Err (CalledProcessError returncode ["zig"; "fetch"; url]),
         mkState w (calls s1 ++ [fetch_call url]) (stdout s1)))
  /\ (forall current w1 returncode out w,
        spawn (fetch_call url) (world s1) = ((0%Z, current), w1) ->
        spawn (fetch_call base) w1 = ((returncode, out), w) ->
        returncode <> 0%Z ->
        main args fs s
        = (Err (CalledProcessError returncode ["zig"; "fetch"; base]),
           mkState w (calls s1 ++ [fetch_call url; fetch_call base]) (stdout s1))).
Proof.
  intros W D P B.
  assert (deps <> []) as NE.
  { intros ->. destruct pre; discriminate D. }
  assert (forall e s2,
             reconcile_url (update args) folder url s1 = (Err e, s2) ->
             main args fs s = (Err e, s2)) as K.
  { intros e s2 X. rewrite (main_found _ _ _ _ W NE). unfold reconcile. rewrite D.
    now rewrite (for_each_abort pre post (folder, url) _ _ _ _ _ P X). }
  split.
  - intros rc out w S N. apply K. rewrite reconcile_url_run, B, S.
    apply Z.eqb_neq in N. now rewrite N.
  - intros current w1 rc out w S1 S2 N. apply K.
    rewrite reconcile_url_run, B, S1, S2. apply Z.eqb_neq in N. now rewrite N.
Qed.




(** X12: a run that returns with a non-empty mapping has written one line
    per declaration, in processing order; the line of a declaration is the
    up-to-date line, the out-of-date line (only without the update flag) or
    an updated line (only with it), for the base of its URL. *)
Theorem X12_one_line_per_declaration (args : Args) (fs : node) (deps : Dependencies)
  (s s' : State World) (code : Z) :
  get_dependencies (root args) fs (recursive args) = Ok deps ->
  deps <> [] ->
  main args fs s = (Ok code, s') ->
  exists lines,
    stdout s' = (stdout s ++ concat_lines lines)%string
    /\ Forall2 (report (update args)) (declarations deps) lines.
Proof.
  intros W NE. rewrite (main_found _ _ _ _ W NE). unfold reconcile.
  destruct (for_each (declarations deps) _ s) as [[[]|e] s1] eqn:R; [|discriminate].
  intros [= _ <-].
  apply (for_each_lines (report (update args))
           (fun p => reconcile_url (update args) (fst p) (snd p))) with (s := s);
    [|exact R].
  intros [folder url] s0 s2 X. exact (proj1 (reconcile_url_success _ _ _ _ _ X)).
Qed.

(** X13: a run that returns with a non-empty mapping has spawned, besides
    the save commands, exactly two hash queries per declaration, in
    processing order: one for the URL and one for its base. A URL or a base
    that occurs again is queried again. *)
Theorem X13_two_queries_per_declaration (args : Args) (fs : node)
  (deps : Dependencies) (s s' : State World) (code : Z) :
  get_dependencies (root args) fs (recursive args) = Ok deps ->
  deps <> [] ->
  main args fs s = (Ok code, s') ->
  exists new,
    calls s' = calls s ++ new
    /\ filter (fun c => negb (is_save c)) new = flat_map queries (declarations deps).
Proof.
  intros W NE. rewrite (main_found _ _ _ _ W NE). unfold reconcile.
  destruct (for_each (declarations deps) _ s) as [[[]|e] s1] eqn:R; [|discriminate].
  intros [= _ <-].
  apply (for_each_queries (fun c => negb (is_save c)) queries
           (fun p => reconcile_url (update args) (fst p) (snd p))) with (s := s);
    [|exact R].
  intros [folder url] s0 s2 X. exact (proj2 (reconcile_url_success _ _ _ _ _ X)).
Qed.

Lemma declarations_dd_get (d : Dependencies) (k : Path) (u : string) :
  NoDup (keys d) -> In (k, u) (declarations d) -> In u (dd_get k d).
Proof.
  unfold declarations. induction d as [|[k0 us] d IH]; simpl; [contradiction|].
  intros N I. inversion N as [|? ? NI N']; subst.
  apply in_app_or in I. destruct I as [I|I].
  - apply in_map_iff in I. destruct I as [u' [[= -> ->] I]].
    now destruct (Path_eq_dec k k).
  - destruct (Path_eq_dec k0 k) as [->|]; [|now apply IH].
    exfalso. apply NI. apply in_flat_map in I. destruct I as [[k1 us1] [I1 I2]].
    simpl in I2. apply in_map_iff in I2. destruct I2 as [u' [[= -> _] _]].
    unfold keys. now apply (in_map fst) in I1.
Qed.

(** X14: in any run of [main] on a directory, every command spawned in save
    mode is [zig fetch --save <base>] for the base of a URL extracted from a
    manifest in scope, with the folder of that manifest as working
    directory, and the update flag is set. *)
Theorem X14_save_only_where_declared (args : Args) (children : list (string * node))
  (s : State World) :
  exists new,
    calls (snd (main args (Dir children) s)) = calls s ++ new
    /\ forall c,
        In c new -> is_save c = true ->
        update args = true
        /\ exists folder url base content vs,
            c = save_call folder base
            /\ get_base url = Ok base
            /\ in_scope (recursive args) (root args) (Dir children) folder content
            /\ urls_of content = Ok vs
            /\ In url vs.
Proof.
  destruct (get_dependencies (root args) (Dir children) (recursive args))
    as [deps|e] eqn:W.
  - destruct deps as [|g deps].
    + rewrite (main_empty _ _ _ W). exists []. split; [now rewrite app_nil_r|].
      contradiction.
    + rewrite (main_found _ _ _ _ W) by discriminate. unfold reconcile.
      destruct (for_each_calls (declared_call (update args))
                  (fun p => reconcile_url (update args) (fst p) (snd p))
                  (fun p s0 => reconcile_url_calls _ (fst p) (snd p) s0)
                  (declarations (g :: deps)) s) as [new [C F]].
      exists new. split.
      * now destruct (for_each (declarations (g :: deps)) _ s) as [[[]|e] s1].
      * intros c I S. rewrite Forall_forall in F.
        destruct (F c I) as [[folder url] [D Q]]. unfold declared_call in Q.
        cbn [fst snd] in Q.
        destruct Q as [->|[base [B [->|[U ->]]]]]; try discriminate S.
        split; [exact U|].
        assert (NoDup (keys (g :: deps))) as N.
        { rewrite WalkFacts.get_dependencies_find_all in W.
          apply (OrderFacts.nodup_find_all _ _ _ W). constructor. }
        apply (declarations_dd_get _ _ _ N) in D.
        apply (WalkFacts.walk_groups _ _ _ _ W) in D.
        destruct D as [content [vs [I' [V J]]]].
        exists folder, url, base, content, vs. auto.
  - rewrite (main_walk_error _ _ _ _ W). exists []. split; [now rewrite app_nil_r|].
    contradiction.
Qed.

End WholeRuns.

Lemma X9_failed_hash_query_aborts_witness :
  main (mkArgs ["proj"] false true) three_urls
       (start [(0%Z, "H"); (0%Z, "H"); (4%Z, ""); (0%Z, "H3")])
  = (Err (CalledProcessError 4 ["zig"; "fetch"; "b#2"]),
     mkState [(0%Z, "H3")] [fetch_call "a#1"; fetch_call "a"; fetch_call "b#2"]
       (up_to_date_line "a"))
  /\ main (mkArgs ["proj"] false true) three_urls
          (start [(0%Z, "H"); (0%Z, "H"); (0%Z, "H1"); (5%Z, ""); (0%Z, "H3")])
     = (Err (CalledProcessError 5 ["zig"; "fetch"; "b"]),
        mkState [(0%Z, "H3")]
          [fetch_call "a#1"; fetch_call "a"; fetch_call "b#2"; fetch_call "b"]
          (up_to_date_line "a")).
Proof.
  split.
  - destruct (@X9_failed_hash_query_aborts Script scripted
                (mkArgs ["proj"] false true) three_urls
                [(["proj"], ["a#1"; "b#2"; "c#3"])]
                [(["proj"], "a#1")] [(["proj"], "c#3")] ["proj"] "b#2" "b"
                (start [(0%Z, "H"); (0%Z, "H"); (4%Z, ""); (0%Z, "H3")])
                (mkState [(4%Z, ""); (0%Z, "H3")] [fetch_call "a#1"; fetch_call "a"]
                   (up_to_date_line "a"))
                eq_refl eq_refl eq_refl eq_refl) as [A _].
    apply (A 4%Z "" [(0%Z, "H3")]); [reflexivity | discriminate].
  - destruct (@X9_failed_hash_query_aborts Script scripted
                (mkArgs ["proj"] false true) three_urls
                [(["proj"], ["a#1"; "b#2"; "c#3"])]
                [(["proj"], "a#1")] [(["proj"], "c#3")] ["proj"] "b#2" "b"
                (start [(0%Z, "H"); (0%Z, "H"); (0%Z, "H1"); (5%Z, ""); (0%Z, "H3")])
                (mkState [(0%Z, "H1"); (5%Z, ""); (0%Z, "H3")]
                   [fetch_call "a#1"; fetch_call "a"] (up_to_date_line "a"))
                eq_refl eq_refl eq_refl eq_refl) as [_ B].
    apply (B "H1" [(5%Z, ""); (0%Z, "H3")] 5%Z "" [(0%Z, "H3")]);
      [reflexivity | reflexivity | discriminate].
Defined.


Lemma X12_one_line_per_declaration_witness :
  exists lines,
    stdout (snd (main (mkArgs ["proj"] false true) three_urls (start all_succeed)))
    = ("" ++ concat_lines lines)%string
    /\ Forall2 (report true)
               (declarations [(["proj"], ["a#1"; "b#2"; "c#3"])]) lines.
Proof.
  apply (@X12_one_line_per_declaration Script scripted
           (mkArgs ["proj"] false true) three_urls
           [(["proj"], ["a#1"; "b#2"; "c#3"])] (start all_succeed)
           (snd (main (mkArgs ["proj"] false true) three_urls (start all_succeed)))
           0%Z);
    [reflexivity | discriminate | reflexivity].
Defined.

Lemma X13_two_queries_per_declaration_witness :
  exists new,
    calls (snd (main (mkArgs ["proj"] false true) three_urls (start all_succeed)))
    = [] ++ new
    /\ filter (fun c => negb (is_save c)) new
       = flat_map queries (declarations [(["proj"], ["a#1"; "b#2"; "c#3"])]).
Proof.
  apply (@X13_two_queries_per_declaration Script scripted
           (mkArgs ["proj"] false true) three_urls
           [(["proj"], ["a#1"; "b#2"; "c#3"])] (start all_succeed)
           (snd (main (mkArgs ["proj"] false true) three_urls (start all_succeed)))
           0%Z);
    [reflexivity | discriminate | reflexivity].
Defined.
